(** * argo-cloudops: request validation and the API client

    A shallow embedding of

    - [internal/validations] : the rule predicates and the [Validate]
      combinator,
    - [internal/requests]    : the request structs and their [Validate]
      methods,
    - [pkg/api] (the client) : the seven remote operations,

    together with the properties the specification states about them. *)

From Stdlib Require Import ZArith Ascii String DecimalString List Bool Lia.
From stdpp Require Import gmap strings list fin_maps.

Local Open Scope string_scope.
Local Open Scope list_scope.

Set Default Proof Using "Type".

(* ===================================================================== *)
(** * Regular expressions (Go's [regexp] on the patterns used here)      *)
(* ===================================================================== *)

(** Go strings are byte sequences, and so are Rocq's [string]s.  All the
    patterns of this repository use ASCII literals and ASCII classes
    only, and no [.] wildcard; a byte of a multi-byte rune is [>= 0x80]
    and belongs to none of these classes, so matching byte by byte
    agrees with RE2's rune-by-rune matching. *)
Module Regexp.

Inductive regex : Type :=
| Void                                   (* matches nothing *)
| Eps                                    (* the empty string *)
| Class (p : ascii -> bool)              (* one byte of a class *)
| Cat (r1 r2 : regex)
| Alt (r1 r2 : regex)
| Star (r : regex).

Definition Chr (c : ascii) : regex := Class (Ascii.eqb c).
Definition Opt (r : regex) : regex := Alt r Eps.          (* r? *)
Definition Plus (r : regex) : regex := Cat r (Star r).    (* r+ *)

(** A literal word such as [git]. *)
Fixpoint Word (s : string) : regex :=
  match s with
  | EmptyString => Eps
  | String c s' => Cat (Chr c) (Word s')
  end.

(** The language of a regular expression. *)
Inductive Matches : regex -> list ascii -> Prop :=
| MEps : Matches Eps []
| MClass p c : p c = true -> Matches (Class p) [c]
| MCat r1 r2 u v : Matches r1 u -> Matches r2 v -> Matches (Cat r1 r2) (u ++ v)
| MAltL r1 r2 u : Matches r1 u -> Matches (Alt r1 r2) u
| MAltR r1 r2 u : Matches r2 u -> Matches (Alt r1 r2) u
| MStar0 r : Matches (Star r) []
| MStarS r u v : Matches r u -> Matches (Star r) v -> Matches (Star r) (u ++ v).

Fixpoint nullable (r : regex) : bool :=
  match r with
  | Void => false
  | Eps => true
  | Class _ => false
  | Cat r1 r2 => nullable r1 && nullable r2
  | Alt r1 r2 => nullable r1 || nullable r2
  | Star _ => true
  end.

(** Constructors that prune [Void], so that derivatives stay small. *)
Definition cat (r1 r2 : regex) : regex :=
  match r1, r2 with
  | Void, _ => Void
  | _, Void => Void
  | Eps, _ => r2
  | _, _ => Cat r1 r2
  end.

Definition alt (r1 r2 : regex) : regex :=
  match r1, r2 with
  | Void, _ => r2
  | _, Void => r1
  | _, _ => Alt r1 r2
  end.

(** Brzozowski derivative. *)
Fixpoint deriv (c : ascii) (r : regex) : regex :=
  match r with
  | Void => Void
  | Eps => Void
  | Class p => if p c then Eps else Void
  | Cat r1 r2 =>
      if nullable r1
      then alt (cat (deriv c r1) r2) (deriv c r2)
      else cat (deriv c r1) r2
  | Alt r1 r2 => alt (deriv c r1) (deriv c r2)
  | Star r1 => cat (deriv c r1) (Star r1)
  end.

(** The whole of [s] matches [r]. *)
Fixpoint matchAll (r : regex) (s : list ascii) : bool :=
  match s with
  | [] => nullable r
  | c :: s' => matchAll (deriv c r) s'
  end.

(** Some prefix of [s] matches [r]. *)
Fixpoint matchPrefix (r : regex) (s : list ascii) : bool :=
  nullable r ||
  match s with
  | [] => false
  | c :: s' => matchPrefix (deriv c r) s'
  end.

(** Some suffix of [s] matches [r]. *)
Fixpoint matchSuffix (r : regex) (s : list ascii) : bool :=
  matchAll r s ||
  match s with
  | [] => false
  | _ :: s' => matchSuffix r s'
  end.

(** Some substring of [s] matches [r]. *)
Fixpoint search (r : regex) (s : list ascii) : bool :=
  matchPrefix r s ||
  match s with
  | [] => false
  | _ :: s' => search r s'
  end.

(** A compiled pattern: the body and whether it is anchored by a
    leading [^] and by a trailing [$] (without the [m] flag these are
    the beginning and the end of the text). *)
Record Pattern : Type := MustCompile {
  bol : bool;
  body : regex;
  eol : bool
}.

(** [Regexp.MatchString]: does the string contain a match? *)
Definition MatchString (p : Pattern) (s : string) : bool :=
  let bs := list_ascii_of_string s in
  match bol p, eol p with
  | true, true => matchAll (body p) bs
  | true, false => matchPrefix (body p) bs
  | false, true => matchSuffix (body p) bs
  | false, false => search (body p) bs
  end.

(** ** Byte classes *)

Definition between (lo hi : ascii) (c : ascii) : bool :=
  (N_of_ascii lo <=? N_of_ascii c)%N && (N_of_ascii c <=? N_of_ascii hi)%N.

Definition lower : ascii -> bool := between "a" "z".
Definition upper : ascii -> bool := between "A" "Z".
Definition digit : ascii -> bool := between "0" "9".
Definition alpha (c : ascii) : bool := lower c || upper c.         (* [a-zA-Z] *)
Definition alnum (c : ascii) : bool := alpha c || digit c.         (* [a-zA-Z0-9] *)
Definition word (c : ascii) : bool := alnum c || Ascii.eqb c "_".  (* \w, [a-zA-Z0-9_] *)
Definition oneOf (cs : string) (c : ascii) : bool :=
  existsb (Ascii.eqb c) (list_ascii_of_string cs).

End Regexp.

(* ===================================================================== *)
(** * Go values shared by the packages                                    *)
(* ===================================================================== *)

(** A Go [error] is [None] for [nil] and [Some e] otherwise.  The errors
    built with [fmt.Errorf] keep their format string and arguments
    instead of the rendered text. *)
Inductive error : Type :=
| errors_New (text : string)
| fmt_Errorf (format : string) (args : list fmtArg)
| govalidator_Errors (es : list FieldError)
with fmtArg : Type :=
| ArgInt (n : Z)
| ArgString (s : string)
| ArgError (e : error)
with FieldError : Type :=
| mkFieldError (Name : string) (Err : error)
               (CustomErrorMessageExists : bool) (Validator : string).

(** [strings.HasSuffix]. *)
Definition strings_HasSuffix (s suffix : string) : bool :=
  (String.length suffix <=? String.length s)%nat &&
  String.eqb (String.substring (String.length s - String.length suffix)
                               (String.length suffix) s) suffix.

(** [strings.Join]. *)
Definition strings_Join (elems : list string) (sep : string) : string :=
  String.concat sep elems.

(** ** [unicode/utf8] *)
Module utf8.

Definition bytes (s : string) : list N := map N_of_ascii (list_ascii_of_string s).

(** The table [first]: for a leading byte, the size of the sequence
    and the range accepted for its second byte; [None] is the entry
    [xx] of an invalid leading byte. *)
Definition first (c : N) : option (nat * N * N) :=
  if (c <? 0xC2)%N then None
  else if (c <=? 0xDF)%N then Some (2%nat, 0x80%N, 0xBF%N)
  else if (c =? 0xE0)%N then Some (3%nat, 0xA0%N, 0xBF%N)
  else if (c =? 0xED)%N then Some (3%nat, 0x80%N, 0x9F%N)
  else if (c <=? 0xEF)%N then Some (3%nat, 0x80%N, 0xBF%N)
  else if (c =? 0xF0)%N then Some (4%nat, 0x90%N, 0xBF%N)
  else if (c <=? 0xF3)%N then Some (4%nat, 0x80%N, 0xBF%N)
  else if (c =? 0xF4)%N then Some (4%nat, 0x80%N, 0x8F%N)
  else None.

Definition cont (c : N) : bool := (0x80 <=? c)%N && (c <=? 0xBF)%N.

(** The number of bytes one iteration of [RuneCountInString] steps
    over, looking at the bytes from the current position on. *)
Definition step (s : list N) : nat :=
  match s with
  | [] => 0
  | c :: _ =>
      if (c <? 0x80)%N then 1
      else match first c with
           | None => 1
           | Some (size, lo, hi) =>
               if (length s <? size)%nat then 1
               else if negb ((lo <=? nth 1 s 0)%N && (nth 1 s 0 <=? hi)%N) then 1
               else if (size =? 2)%nat then 2
               else if negb (cont (nth 2 s 0%N)) then 1
               else if (size =? 3)%nat then 3
               else if negb (cont (nth 3 s 0%N)) then 1
               else size
           end
  end.

Fixpoint count (fuel : nat) (s : list N) : nat :=
  match fuel, s with
  | S fuel', _ :: _ => S (count fuel' (drop (step s) s))
  | _, _ => 0
  end.

(** Every iteration consumes at least one byte, so [length s]
    iterations are enough. *)
Definition RuneCountInString (s : string) : nat :=
  count (length (bytes s)) (bytes s).

End utf8.

(* ===================================================================== *)
(** * govalidator: struct validation driven by [valid] tags              *)
(* ===================================================================== *)

(** The third-party validator behind [validations.ValidateStruct], for
    the tags this repository writes: [required], [alphanum],
    [stringlength(min|max)] and the registered custom validators, each
    with an optional [~message].  Only string fields carry a [valid]
    tag here; an untagged field contributes no error, and an untagged
    nested struct is validated recursively. *)
Module govalidator.

Inductive rule : Type :=
| required
| alphanum
| stringlength (min max : nat)
| custom (name : string).

Record tagOption : Type := Tag {
  tagRule : rule;
  customErrorMessage : string
}.

(** A struct value as reflection sees it: its fields in declaration
    order, with the Go name, the [json] name and the [valid] tag. *)
#[local] Unset Elimination Schemes.
Inductive Field : Type :=
| StringField (Name json : string) (valid : list tagOption) (v : string)
| SliceField (Name json : string) (v : list string)
| MapField (Name json : string) (v : gmap string string)
| MapSliceField (Name json : string) (v : gmap string (list string))
| StructField (Name json : string) (fields : list Field).
#[local] Set Elimination Schemes.

Definition ruleName (r : rule) : string :=
  match r with
  | required => "required"
  | alphanum => "alphanum"
  | stringlength lo hi =>
      "stringlength("
        +:+ NilEmpty.string_of_uint (Nat.to_uint lo) +:+ "|"
        +:+ NilEmpty.string_of_uint (Nat.to_uint hi) +:+ ")"
  | custom n => n
  end.

(** The validator name without its parameters ([stripParams]). *)
Definition validatorOf (r : rule) : string :=
  match r with
  | stringlength _ _ => "stringlength"
  | _ => ruleName r
  end.

(** [rxAlphanumeric], the pattern [^[a-zA-Z0-9]+$]. *)
Definition rxAlphanumeric : Regexp.Pattern :=
  Regexp.MustCompile true (Regexp.Plus (Regexp.Class Regexp.alnum)) true.

Definition IsAlphanumeric (str : string) : bool :=
  if String.eqb str "" then true else Regexp.MatchString rxAlphanumeric str.

Definition StringLength (str : string) (lo hi : nat) : bool :=
  let n := utf8.RuneCountInString str in
  (lo <=? n)%nat && (n <=? hi)%nat.

Definition isRequired (opts : list tagOption) : option tagOption :=
  find (fun o => match tagRule o with required => true | _ => false end) opts.

Definition mkError (name : string) (o : tagOption) (v : string) : FieldError :=
  if String.eqb (customErrorMessage o) ""
  then mkFieldError name
         (fmt_Errorf "%s does not validate as %s" [ArgString v; ArgString (ruleName (tagRule o))])
         false (validatorOf (tagRule o))
  else mkFieldError name (fmt_Errorf (customErrorMessage o) []) true (validatorOf (tagRule o)).

(** [checkRequired], for an empty value. *)
Definition checkRequired (name : string) (opts : list tagOption) : list FieldError :=
  match isRequired opts with
  | Some o =>
      if String.eqb (customErrorMessage o) ""
      then [mkFieldError name (fmt_Errorf "non zero value required" []) false "required"]
      else [mkFieldError name (fmt_Errorf (customErrorMessage o) []) true "required"]
  | None => []
  end.

Section TypeCheck.
(** [CustomTypeTagMap], the registry of custom validators. *)
Variable CustomTypeTagMap : gmap string (string -> bool).

(** First pass of [typeCheck]: every registered custom validator of
    the tag runs, and all their failures are collected. *)
Definition customTypeErrors (name : string) (opts : list tagOption) (v : string)
  : list FieldError :=
  flat_map (fun o : tagOption =>
    match tagRule o with
    | custom n =>
        match (CustomTypeTagMap !! n : option (string -> bool)) with
        | Some validatefunc => if validatefunc v then [] else [mkError name o v]
        | None => []
        end
    | _ => []
    end) opts.

(** Second pass: the built-in validators in tag order, stopping at
    the first failure; a name that no map knows is reported as an
    invalid validator once everything else has passed. *)
Fixpoint builtinErrors (name : string) (opts : list tagOption) (v : string)
  : list FieldError :=
  match opts with
  | [] => []
  | o :: rest =>
      match tagRule o with
      | alphanum =>
          if IsAlphanumeric v then builtinErrors name rest v else [mkError name o v]
      | stringlength lo hi =>
          if StringLength v lo hi then builtinErrors name rest v else [mkError name o v]
      | required | custom _ => builtinErrors name rest v
      end
  end.

Definition unknownValidators (name : string) (opts : list tagOption) : list FieldError :=
  match find (fun o => match tagRule o with
                       | custom n => bool_decide (CustomTypeTagMap !! n = None)
                       | _ => false
                       end) opts with
  | Some o =>
      [mkFieldError name
         (fmt_Errorf "The following validator is invalid or can't be applied to the field: %q"
                     [ArgString (ruleName (tagRule o))])
         false (validatorOf (tagRule o))]
  | None => []
  end.

(** [typeCheck] on a string field. *)
Definition typeCheck (name : string) (opts : list tagOption) (v : string)
  : list FieldError :=
  match opts with
  | [] => []                                   (* no tag: the field is ignored *)
  | _ =>
      if String.eqb v "" then checkRequired name opts   (* an empty value is only checked for required *)
      else match customTypeErrors name opts v with
           | [] => match builtinErrors name opts v with
                   | [] => unknownValidators name opts
                   | errs => errs
                   end
           | errs => errs
           end
  end.

(** The error carries the [json] name of the field when it has one. *)
Definition errorName (Name json : string) : string :=
  if String.eqb json "" then Name else json.

(** One iteration of the loop of [govalidator.ValidateStruct] over
    the fields: a nested struct is validated recursively, then the
    field itself is type-checked against its tag. *)
Fixpoint validateField (f : Field) : list FieldError :=
  match f with
  | StringField Name json valid v => typeCheck (errorName Name json) valid v
  | SliceField _ _ _ | MapField _ _ _ | MapSliceField _ _ _ =>
      []        (* untagged: the elements are visited and none has a validator *)
  | StructField _ _ fields => flat_map validateField fields
  end.

(** [govalidator.ValidateStruct]: all fields are visited and all
    their errors are collected. *)
Definition ValidateStruct (fields : list Field) : list FieldError :=
  flat_map validateField fields.
End TypeCheck.

End govalidator.

(* ===================================================================== *)
(** * Third-party parsers                                                 *)
(* ===================================================================== *)

(** The two parsers the rule predicates hand their input to live outside the
    repository; every definition and theorem below is parametric in
    them. *)
Class Parsers : Type := {
  (** [arn.IsARN] of the AWS SDK. *)
  arn_IsARN : string -> bool;
  (** The error result of [reference.ParseAnyReference] of the
      distribution library. *)
  reference_ParseAnyReference : string -> option error
}.

(* ===================================================================== *)
(** * Package [validations]                                               *)
(* ===================================================================== *)

(** The package comes in two revisions.  [requests] is written against
    the later one, built on govalidator: [Validate], [ValidateStruct]
    and the two custom validators.  The field-level rules of the
    earlier one ([isValidArgument] and its neighbours) close the
    module. *)
Module validations.
Import Regexp.

(** [Validate] iterates through the provided validation funcs. *)
Fixpoint Validate (validations : list (unit -> option error)) : option error :=
  match validations with
  | [] => None
  | v :: rest =>
      match v tt with
      | Some err => Some err
      | None => Validate rest
      end
  end.

(** The pattern [^([a-zA-Z])[a-zA-Z0-9_]*$]. *)
Definition alphaNumericUnderscorePattern : Pattern :=
  MustCompile true (Cat (Class alpha) (Star (Class word))) true.

(** [isAlphaNumbericUnderscore], on its [string] case. *)
Definition isAlphaNumbericUnderscore (s : string) : bool :=
  MatchString alphaNumericUnderscorePattern s.

(** The pattern
    [((git|ssh|https)|(git@[\w\.]+))(:(//)?)([\w\.@\:/\-~]+)(\.git)(/)?],
    which carries no anchor. *)
Definition gitURIPattern : Pattern :=
  MustCompile false
    (Cat (Alt (Alt (Word "git") (Alt (Word "ssh") (Word "https")))
              (Cat (Word "git@") (Plus (Class (fun c => word c || oneOf "." c)))))
    (Cat (Cat (Chr ":") (Opt (Word "//")))
    (Cat (Plus (Class (fun c => word c || oneOf ".@:/-~" c)))
    (Cat (Word ".git")
         (Opt (Chr "/"))))))
    false.

(** [isValidGitURI], on its [string] case. *)
Definition isValidGitURI (s : string) : bool :=
  MatchString gitURIPattern s.

(** The custom validators [ValidateStruct] registers.  Both panic on
    a field that is not a string; they are only ever attached to
    string fields. *)
Definition customValidators : gmap string (string -> bool) :=
  <["alphanumunderscore" := isAlphaNumbericUnderscore]>
    (<["gitURI" := isValidGitURI]> ∅).

(** [ValidateStruct] validates the provided struct. *)
Definition ValidateStruct (input : list govalidator.Field) : option error :=
  match govalidator.ValidateStruct customValidators input with
  | [] => None
  | errs => Some (govalidator_Errors errs)
  end.

Section WithParsers.
Context {P : Parsers}.

(** [IsValidARN] determines if the string is a valid AWS ARN. *)
Definition IsValidARN (s : string) : bool := arn_IsARN s.

(** [IsValidImageURI] determines if the image URI is a valid
    container image URI format. *)
Definition IsValidImageURI (imageURI : string) : bool :=
  match reference_ParseAnyReference imageURI with
  | None => true
  | Some _ => false
  end.
End WithParsers.

(** ** The earlier, field-level rule set *)

Section FieldLevel.
Context {P : Parsers}.

(** [isValidExecuteContainerImage] on a map-typed field. *)
Definition isValidExecuteContainerImage (field : gmap string string) : bool :=
  match field !! "execute_container_image_uri" with
  | Some image => IsValidImageURI image
  | None => false            (* execute_container_image_uri key missing *)
  end.

(** [isValidPreContainerImage] on a map-typed field. *)
Definition isValidPreContainerImage (field : gmap string string) : bool :=
  match field !! "pre_container_image_uri" with
  | Some image => IsValidImageURI image
  | None => true             (* pre_container_image_uri is not required *)
  end.
End FieldLevel.

(** [isValidTargetType]. *)
Definition isValidTargetType (field : string) : bool :=
  String.eqb field "aws_account".

(** The loop of [isValidArgument] over [MapKeys()]. *)
Fixpoint isValidArgumentKeys (keys : list string) : bool :=
  match keys with
  | [] => false
  | key :: rest =>
      if String.eqb key "execute" || String.eqb key "init"
      then true
      else isValidArgumentKeys rest
  end.

(** [isValidArgument] on a map-typed field.  [MapKeys] returns the
    keys in an unspecified order; [isValidArgumentKeys_perm] shows
    that the order does not matter. *)
Definition isValidArgument {V : Type} (field : gmap string V) : bool :=
  isValidArgumentKeys (map_to_list field).*1.

End validations.

(* ===================================================================== *)
(** * Package [requests]                                                  *)
(* ===================================================================== *)

Module requests.
Import govalidator.

(** ** CreateWorkflow *)
Module CreateWorkflow.
Record t : Type := mk {
  Arguments : gmap string (list string);
  EnvironmentVariables : gmap string string;
  Framework : string;
  Parameters : gmap string string;
  ProjectName : string;
  TargetName : string;
  Type_ : string;
  WorkflowTemplateName : string
}.

(** The struct as reflection sees it, with its [valid] tags. *)
Definition fields (req : t) : list Field :=
  [ MapSliceField "Arguments" "arguments" (Arguments req);
    MapField "EnvironmentVariables" "environment_variables" (EnvironmentVariables req);
    StringField "Framework" "framework" [] (Framework req);
    MapField "Parameters" "parameters" (Parameters req);
    StringField "ProjectName" "project_name"
      [ Tag alphanum "project_name must be alphanumeric";
        Tag (stringlength 4 32) "project_name must be between 4 and 32 characters" ]
      (ProjectName req);
    StringField "TargetName" "target_name"
      [ Tag (custom "alphanumunderscore") "target_name must be alphanumericunderscore";
        Tag (stringlength 4 32) "target_name must be between 4 and 32 characters" ]
      (TargetName req);
    StringField "Type" "type" [] (Type_ req);
    StringField "WorkflowTemplateName" "workflow_template_name" [] (WorkflowTemplateName req) ].

Definition argumentsError : error :=
  fmt_Errorf "arguments must be one of 'execute init'" [].

(** The [for k := range req.Arguments] loop of [validateArguments]. *)
Fixpoint validateArgumentKeys (keys : list string) : option error :=
  match keys with
  | [] => None
  | k :: rest =>
      if negb (String.eqb k "execute") && negb (String.eqb k "init")
      then Some argumentsError
      else validateArgumentKeys rest
  end.

(** [validateArguments] validates the Arguments. *)
Definition validateArguments (req : t) : option error :=
  if (size (Arguments req) =? 0)%nat then None
  else if (2 <? size (Arguments req))%nat then Some argumentsError
  else validateArgumentKeys (map_to_list (Arguments req)).*1.

Section WithParsers.
Context {P : Parsers}.

(** [validateParameters] validates the Parameters. *)
Definition validateParameters (req : t) : option error :=
  match Parameters req !! "execute_container_image_uri" with
  | None => Some (errors_New "parameter execute_container_image_uri is required")
  | Some val =>
      if negb (validations.IsValidImageURI val)
      then Some (errors_New "parameter execute_container_image_uri must be a valid container uri")
      else
        match Parameters req !! "pre_container_image_uri" with
        | Some val' =>
            if negb (validations.IsValidImageURI val')
            then Some (errors_New "parameter pre_container_image_uri must be a valid container uri")
            else None
        | None => None
        end
  end.

(** [Validate] validates CreateWorkflow. *)
Definition Validate (req : t) (optionalValidations : list (unit -> option error))
  : option error :=
  let v := [ (fun _ : unit => validations.ValidateStruct (fields req));
             (fun _ : unit => validateArguments req);
             (fun _ : unit => validateParameters req) ] in
  let v := v ++ optionalValidations in
  validations.Validate v.
End WithParsers.

(** The loop of [ValidateType]. *)
Fixpoint typeIn (ty : string) (types : list string) : bool :=
  match types with
  | [] => false
  | t' :: rest => if String.eqb ty t' then true else typeIn ty rest
  end.

(** [ValidateType] is an optional validation, to be passed to
    [Validate]. *)
Definition ValidateType (req : t) (types : list string) : unit -> option error :=
  fun _ =>
    if typeIn (Type_ req) types then None
    else Some (fmt_Errorf "type must be one of '%s'" [ArgString (strings_Join types " ")]).
End CreateWorkflow.

(** ** CreateGitWorkflow *)
Module CreateGitWorkflow.
Record t : Type := mk {
  CommitHash : string;
  Path : string;
  Type_ : string
}.

Definition fields (req : t) : list Field :=
  [ StringField "CommitHash" "sha"
      [ Tag required "sha is required"; Tag alphanum "sha must be alphanumeric" ]
      (CommitHash req);
    StringField "Path" "path" [ Tag required "path is required" ] (Path req);
    StringField "Type" "type" [ Tag required "type is required" ] (Type_ req) ].

Definition Validate (req : t) : option error :=
  validations.ValidateStruct (fields req).
End CreateGitWorkflow.

(** ** TargetProperties *)
Module TargetProperties.
Record t : Type := mk {
  CredentialType : string;
  PolicyArns : list string;
  PolicyDocument : string;
  RoleArn : string
}.

Definition fields (p : t) : list Field :=
  [ StringField "CredentialType" "credential_type" [] (CredentialType p);
    SliceField "PolicyArns" "policy_arns" (PolicyArns p);
    StringField "PolicyDocument" "policy_document" [] (PolicyDocument p);
    StringField "RoleArn" "role_arn" [] (RoleArn p) ].
End TargetProperties.

(** ** CreateTarget *)
Module CreateTarget.
Record t : Type := mk {
  Name : string;
  Properties : TargetProperties.t;
  Type_ : string
}.

Definition fields (req : t) : list Field :=
  [ StringField "Name" "name"
      [ Tag required "name is required";
        Tag (custom "alphanumunderscore") "name must be alphanumeric underscore";
        Tag (stringlength 4 32) "name must be between 4 and 32 characters" ]
      (Name req);
    StructField "Properties" "properties" (TargetProperties.fields (Properties req));
    StringField "Type" "type" [] (Type_ req) ].

Definition typeError : error := errors_New "type must be one of 'aws_account'".

Section WithParsers.
Context {P : Parsers}.

(** The [for _, arn := range req.Properties.PolicyArns] loop. *)
Fixpoint validatePolicyArns (arns : list string) : option error :=
  match arns with
  | [] => None
  | arn :: rest =>
      if negb (validations.IsValidARN arn)
      then Some (errors_New "policy_arns contains an invalid arn")
      else validatePolicyArns rest
  end.

Definition validateTargetProperties (req : t) : option error :=
  let p := Properties req in
  if negb (String.eqb (TargetProperties.CredentialType p) "vault")
  then Some (errors_New "credential_type must be one of 'vault'")
  else if negb (validations.IsValidARN (TargetProperties.RoleArn p))
  then Some (errors_New "role_arn must be a valid arn")
  else if (5 <? length (TargetProperties.PolicyArns p))%nat
  then Some (errors_New "policy_arns cannot be more than 5")
  else validatePolicyArns (TargetProperties.PolicyArns p).

(** [Validate] validates CreateTarget. *)
Definition Validate (req : t) : option error :=
  if negb (String.eqb (Type_ req) "aws_account")
  then Some typeError
  else
    let v := [ (fun _ : unit => validations.ValidateStruct (fields req));
               (fun _ : unit => validateTargetProperties req) ] in
    validations.Validate v.
End WithParsers.
End CreateTarget.

(** ** CreateProject *)
Module CreateProject.
Record t : Type := mk {
  Name : string;
  Repository : string
}.

Definition fields (req : t) : list Field :=
  [ StringField "Name" "name"
      [ Tag alphanum "name must be alphanumeric";
        Tag (stringlength 4 32) "name must be between 4 and 32 characters" ]
      (Name req);
    StringField "Repository" "repository"
      [ Tag required ""; Tag (custom "gitURI") "repository must be a git uri" ]
      (Repository req) ].

Definition Validate (req : t) : option error :=
  validations.ValidateStruct (fields req).
End CreateProject.

(** ** TargetOperation *)
Module TargetOperation.
Record t : Type := mk {
  Path : string;
  SHA : string;
  Type_ : string
}.

Definition fields (req : t) : list Field :=
  [ StringField "Path" "path" [ Tag required "path is required" ] (Path req);
    StringField "SHA" "sha" [ Tag required "sha is required"; Tag alphanum "" ] (SHA req);
    StringField "Type" "type" [ Tag required "type is required" ] (Type_ req) ].

(** [Validate] validates TargetOperation. *)
Definition Validate (req : t) : option error :=
  validations.ValidateStruct (fields req).
End TargetOperation.

End requests.

(* ===================================================================== *)
(** * The standard library as the client uses it                          *)
(* ===================================================================== *)

(** A Go result pair [(value, err)]. *)
Inductive result (A : Type) : Type :=
| Ok (a : A)
| Err (e : error).
Arguments Ok {A} a.
Arguments Err {A} e.

Module io.
(** A reader, as the sequence of its reads: the chunks it returns and
    then [io.EOF] ([None]) or a read error. *)
Record Reader : Type := mkReader {
  chunks : list string;
  readError : option error
}.

(** A writer: given the bytes it has received so far and a buffer
    [p], [Write] returns the number of bytes of [p] it took and an
    error. *)
Record Writer : Type := mkWriter {
  Write : string -> string -> nat * option error
}.

Definition ErrShortWrite : error := errors_New "short write".
Definition errInvalidWrite : error := errors_New "invalid write result".

(** All the bytes of a sequence of chunks. *)
Definition joinChunks (cs : list string) : string :=
  fold_right String.append "" cs.

(** [io.ReadAll]. *)
Definition ReadAll (r : Reader) : string * option error :=
  (joinChunks (chunks r), readError r).

(** The loop of [io.Copy]: each chunk read is written to [dst];
    [sink] is what [dst] has received.  The result is the sink and
    the error of the copy. *)
Fixpoint copyChunks (dst : Writer) (sink : string) (cs : list string)
         (readErr : option error) : string * option error :=
  match cs with
  | [] => (sink, readErr)
  | p :: rest =>
      if (String.length p =? 0)%nat then copyChunks dst sink rest readErr
      else
        let '(nw, ew) := Write dst sink p in
        if (String.length p <? nw)%nat then
          (sink, Some (match ew with Some e => e | None => errInvalidWrite end))
        else
          let sink' := sink +:+ String.substring 0 nw p in
          match ew with
          | Some e => (sink', Some e)
          | None =>
              if negb (nw =? String.length p)%nat then (sink', Some ErrShortWrite)
              else copyChunks dst sink' rest readErr
          end
  end.

Definition Copy (dst : Writer) (sink : string) (src : Reader) : string * option error :=
  copyChunks dst sink (chunks src) (readError src).
End io.

Module http.
Definition MethodGet : string := "GET".
Definition MethodPost : string := "POST".
Definition StatusOK : Z := 200.

Record Request : Type := mkRequest {
  Method : string;
  URL : string;
  Header : gmap string (list string);
  Body : option string
}.

Record Response : Type := mkResponse {
  StatusCode : Z;
  RespBody : io.Reader
}.

(** [Header.Add]: append the value to those of the key. *)
Definition Header_Add (key value : string) (h : gmap string (list string))
  : gmap string (list string) :=
  <[key := default [] (h !! key) ++ [value]]> h.

Definition Add (key value : string) (req : Request) : Request :=
  mkRequest (Method req) (URL req) (Header_Add key value (Header req)) (Body req).
End http.

(** What the client needs from [net/url] and [encoding/json], and the
    request and response types declared outside the sources at hand. *)
Module responses.
(** Modelled from the spec: package [responses] is not among the
    sources; the records follow the REST table, [{name, status,
    created, finished}] for a status, an array of names for the
    workflows and [{workflow_name}] for the write operations. *)
Record GetWorkflowStatus : Type := mkGetWorkflowStatus {
  Name : string; Status : string; Created : string; Finished : string
}.
Definition GetWorkflows : Type := list string.
Record GetLogs : Type := mkGetLogs { Logs : list string }.
Record TargetOperation : Type := mkTargetOperation { WorkflowName : string }.
Definition Diff : Type := TargetOperation.
Definition Sync : Type := TargetOperation.
Record ExecuteWorkflow : Type := mkExecuteWorkflow { ExecWorkflowName : string }.
End responses.

Class Std : Type := {
  (** The error of [url.Parse], by which [http.NewRequestWithContext]
      fails. *)
  url_Parse : string -> option error;
  (** [json.Marshal] on the two request bodies. *)
  json_Marshal_TargetOperation : requests.TargetOperation.t -> result string;
  json_Marshal_ExecuteWorkflow : requests.CreateWorkflow.t -> result string;
  (** [json.Unmarshal] into each response type. *)
  json_Unmarshal_GetLogs : string -> result responses.GetLogs;
  json_Unmarshal_GetWorkflowStatus : string -> result responses.GetWorkflowStatus;
  json_Unmarshal_GetWorkflows : string -> result responses.GetWorkflows;
  json_Unmarshal_TargetOperation : string -> result responses.TargetOperation;
  json_Unmarshal_ExecuteWorkflow : string -> result responses.ExecuteWorkflow
}.

(* ===================================================================== *)
(** * Package [api]: the client                                           *)
(* ===================================================================== *)

(** The revision of the client that has [TargetOperationInput],
    [GetLogs] and [StreamLogs], and routes [Diff] and [Sync] through
    [targetOperation]. *)
Module api.
Import http.

Definition diff : string := "diff".
Definition sync : string := "sync".

(** The transport behind the [httpClient] interface: the result of
    [Do] on a request. *)
Definition httpClient : Type := Request -> result Response.

(** [Client] represents an API client. *)
Record Client : Type := mkClient {
  authToken : string;
  httpClient_ : httpClient;
  endpoint : string
}.

(** [TargetOperationInput] represents the input to a targetOperation. *)
Record TargetOperationInput : Type := mkTargetOperationInput {
  Path : string;
  ProjectName : string;
  SHA : string;
  TargetName : string
}.

(** Modelled from the spec: [requests.ExecuteWorkflow] is not declared
    in the sources at hand; the REST table gives its body the eight
    fields [{arguments, environment_variables, framework, parameters,
    project_name, target_name, type, workflow_template_name}], those
    of [CreateWorkflow]. *)
Definition ExecuteWorkflowInput : Type := requests.CreateWorkflow.t.

(** ** Effects

    What a call does to the outside: the requests it hands to the
    transport, oldest first, and the bytes the caller's writer has
    received. *)
Record World : Type := mkWorld {
  sent : list Request;
  sink : string
}.

Definition M (A : Type) : Type := World -> A * World.

Definition ret {A : Type} (a : A) : M A := fun w => (a, w).

Definition bind {A B : Type} (m : M A) (k : A -> M B) : M B :=
  fun w => let '(a, w') := m w in k a w'.

Notation "'let*' x ':=' m 'in' k" := (bind m (fun x => k))
  (at level 10, x name, m at level 100, k at level 200).

(** [c.httpClient.Do(req)]. *)
Definition Do (c : Client) (req : Request) : M (result Response) :=
  fun w => (httpClient_ c req, mkWorld (sent w ++ [req]) (sink w)).

(** [io.Copy(w, body)]. *)
Definition Copy (dst : io.Writer) (body : io.Reader) : M (option error) :=
  fun w => let '(sink', err) := io.Copy dst (sink w) body in
           (err, mkWorld (sent w) sink').

Section WithStd.
Context {S : Std}.

(** [http.NewRequestWithContext]; the context only matters to the
    transport, whose failures are those of [Do]. *)
Definition NewRequestWithContext (method url : string) (body : option string)
  : result Request :=
  match url_Parse url with
  | Some err => Err err
  | None => Ok (mkRequest method url ∅ body)
  end.

Definition getRequest (c : Client) (url : string) : M (result string) :=
  match NewRequestWithContext MethodGet url None with
  | Err err => ret (Err (fmt_Errorf "unable to create api request: %w" [ArgError err]))
  | Ok req =>
      let* r := Do c req in
      match r with
      | Err err => ret (Err (fmt_Errorf "unable to make api call: %w" [ArgError err]))
      | Ok resp =>
          let '(body, err) := io.ReadAll (RespBody resp) in
          match err with
          | Some err =>
              ret (Err (fmt_Errorf "error reading response body. status code: %d, error: %w"
                                   [ArgInt (StatusCode resp); ArgError err]))
          | None =>
              if negb (StatusCode resp =? StatusOK)%Z
              then ret (Err (fmt_Errorf "received unexpected status code: %d, body: %s"
                                        [ArgInt (StatusCode resp); ArgString body]))
              else ret (Ok body)
          end
      end
  end.

(** [GetLogs] gets the logs of a workflow. *)
Definition GetLogs (c : Client) (workflowName : string) : M (result responses.GetLogs) :=
  let url := endpoint c +:+ "/workflows/" +:+ workflowName +:+ "/logs" in
  let* r := getRequest c url in
  match r with
  | Err err => ret (Err err)
  | Ok body =>
      match json_Unmarshal_GetLogs body with
      | Err err => ret (Err (fmt_Errorf "unable to parse response: %w" [ArgError err]))
      | Ok output => ret (Ok output)
      end
  end.

(** [StreamLogs] streams the logs of a workflow. *)
Definition StreamLogs (c : Client) (w : io.Writer) (workflowName : string)
  : M (option error) :=
  let url := endpoint c +:+ "/workflows/" +:+ workflowName +:+ "/logstream" in
  match NewRequestWithContext MethodGet url None with
  | Err err => ret (Some (fmt_Errorf "unable to create api request: %w" [ArgError err]))
  | Ok req =>
      let* r := Do c req in
      match r with
      | Err err => ret (Some (fmt_Errorf "unable to make api call: %w" [ArgError err]))
      | Ok resp =>
          if negb (StatusCode resp =? StatusOK)%Z
          then ret (Some (fmt_Errorf "received unexpected status code: %d"
                                     [ArgInt (StatusCode resp)]))
          else
            let* err := Copy w (RespBody resp) in
            match err with
            | Some err =>
                ret (Some (fmt_Errorf "error reading response body. status code: %d, error: %w"
                                      [ArgInt (StatusCode resp); ArgError err]))
            | None =>
                if negb (StatusCode resp =? StatusOK)%Z
                then ret (Some (fmt_Errorf "received unexpected status code: %d"
                                           [ArgInt (StatusCode resp)]))
                else ret None
            end
      end
  end.

(** [GetWorkflowStatus] gets the status of a workflow. *)
Definition GetWorkflowStatus (c : Client) (workflowName : string)
  : M (result responses.GetWorkflowStatus) :=
  let url := endpoint c +:+ "/workflows/" +:+ workflowName in
  let* r := getRequest c url in
  match r with
  | Err err => ret (Err err)
  | Ok body =>
      match json_Unmarshal_GetWorkflowStatus body with
      | Err err => ret (Err (fmt_Errorf "unable to parse response: %w" [ArgError err]))
      | Ok output => ret (Ok output)
      end
  end.

(** [GetWorkflows] gets the list of workflows for a project and
    target. *)
Definition GetWorkflows (c : Client) (project target : string)
  : M (result responses.GetWorkflows) :=
  let url := endpoint c +:+ "/projects/" +:+ project +:+ "/targets/" +:+ target
                      +:+ "/workflows" in
  let* r := getRequest c url in
  match r with
  | Err err => ret (Err err)
  | Ok body =>
      match json_Unmarshal_GetWorkflows body with
      | Err err => ret (Err (fmt_Errorf "unable to parse response: %w" [ArgError err]))
      | Ok output => ret (Ok output)
      end
  end.

(** The request [targetOperation] builds from its input. *)
Definition targetReq (input : TargetOperationInput) (operationType : string)
  : requests.TargetOperation.t :=
  requests.TargetOperation.mk (Path input) (SHA input) operationType.

Definition targetOperation (c : Client) (input : TargetOperationInput)
           (operationType : string) : M (result responses.TargetOperation) :=
  let url := endpoint c +:+ "/projects/" +:+ ProjectName input +:+ "/targets/"
                      +:+ TargetName input +:+ "/operations" in
  let targetReq := targetReq input operationType in
  match requests.TargetOperation.Validate targetReq with
  | Some err => ret (Err err)
  | None =>
      match json_Marshal_TargetOperation targetReq with
      | Err err =>
          ret (Err (fmt_Errorf "unable to create api request body, error: %w" [ArgError err]))
      | Ok reqBody =>
          match NewRequestWithContext MethodPost url (Some reqBody) with
          | Err err => ret (Err (fmt_Errorf "unable to create api request: %w" [ArgError err]))
          | Ok req =>
              let req := Add "Authorization" (authToken c) req in
              let* r := Do c req in
              match r with
              | Err err => ret (Err (fmt_Errorf "unable to make api call: %w" [ArgError err]))
              | Ok resp =>
                  let '(body, err) := io.ReadAll (RespBody resp) in
                  match err with
                  | Some err =>
                      ret (Err (fmt_Errorf
                                  "error reading response body. status code: %d, error: %w"
                                  [ArgInt (StatusCode resp); ArgError err]))
                  | None =>
                      if (300 <=? StatusCode resp)%Z || (StatusCode resp <? 200)%Z
                      then ret (Err (fmt_Errorf
                                       "received unexpected status code: %d, body: %s"
                                       [ArgInt (StatusCode resp); ArgString body]))
                      else
                        match json_Unmarshal_TargetOperation body with
                        | Err err =>
                            ret (Err (fmt_Errorf "unable to parse response: %w" [ArgError err]))
                        | Ok output => ret (Ok output)
                        end
                  end
              end
          end
      end
  end.

(** [Diff] submits a "diff" for the provided project target. *)
Definition Diff (c : Client) (input : TargetOperationInput) : M (result responses.Diff) :=
  let* r := targetOperation c input diff in
  match r with
  | Err err => ret (Err err)
  | Ok output => ret (Ok output)
  end.

(** [Sync] submits a "sync" for the provided project target. *)
Definition Sync (c : Client) (input : TargetOperationInput) : M (result responses.Sync) :=
  let* r := targetOperation c input sync in
  match r with
  | Err err => ret (Err err)
  | Ok output => ret (Ok output)
  end.

(** [ExecuteWorkflow] submits a workflow execution request. *)
Definition ExecuteWorkflow (c : Client) (input : ExecuteWorkflowInput)
  : M (result responses.ExecuteWorkflow) :=
  let url := endpoint c +:+ "/workflows" in
  match json_Marshal_ExecuteWorkflow input with
  | Err err =>
      ret (Err (fmt_Errorf "unable to create api request body, error: %w" [ArgError err]))
  | Ok reqBody =>
      match NewRequestWithContext MethodPost url (Some reqBody) with
      | Err err => ret (Err (fmt_Errorf "unable to create api request: %w" [ArgError err]))
      | Ok req =>
          let req := Add "Authorization" (authToken c) req in
          let* r := Do c req in
          match r with
          | Err err => ret (Err (fmt_Errorf "unable to make api call: %w" [ArgError err]))
          | Ok resp =>
              let '(body, err) := io.ReadAll (RespBody resp) in
              match err with
              | Some err =>
                  ret (Err (fmt_Errorf
                              "error reading response body. status code: %d, error: %w"
                              [ArgInt (StatusCode resp); ArgError err]))
              | None =>
                  if (300 <=? StatusCode resp)%Z || (StatusCode resp <? 200)%Z
                  then ret (Err (fmt_Errorf
                                   "received unexpected status code: %d, body: %s"
                                   [ArgInt (StatusCode resp); ArgString body]))
                  else
                    match json_Unmarshal_ExecuteWorkflow body with
                    | Err err =>
                        ret (Err (fmt_Errorf "unable to parse response: %w" [ArgError err]))
                    | Ok output => ret (Ok output)
                    end
              end
          end
      end
  end.
End WithStd.

End api.

(* ===================================================================== *)
(** * Vocabulary of the properties                                        *)
(* ===================================================================== *)

Module Observations.
Import http api.

(** The keys [validateArguments] knows. *)
Definition allowedArguments : gset string := {["execute"; "init"]}.

(** A writer that takes every buffer whole and never fails, as an
    in-memory buffer does. *)
Definition accepting (w : io.Writer) : Prop :=
  forall received p, io.Write w received p = (String.length p, None).

(** [emits R m]: running [m] appends to the trace only requests that
    satisfy [R]. *)
Definition emits {A : Type} (R : Request -> Prop) (m : M A) : Prop :=
  forall w, exists l, sent (snd (m w)) = sent w ++ l /\ Forall R l.

(** The request carries the token as its one [Authorization] value. *)
Definition carriesToken (c : Client) (req : Request) : Prop :=
  Header req !! "Authorization" = Some [authToken c].

Definition carriesNoAuthorization (req : Request) : Prop :=
  Header req !! "Authorization" = None.

Section WithStd.
Context {S : Std}.

(** ** The seven operations as one family *)

Inductive Operation : Type :=
| OpGetLogs (workflowName : string)
| OpStreamLogs (w : io.Writer) (workflowName : string)
| OpGetWorkflowStatus (workflowName : string)
| OpGetWorkflows (project target : string)
| OpDiff (input : TargetOperationInput)
| OpExecuteWorkflow (input : ExecuteWorkflowInput)
| OpSync (input : TargetOperationInput).

Definition errorOf {A : Type} (r : result A) : option error :=
  match r with
  | Ok _ => None
  | Err e => Some e
  end.

(** Run an operation, keeping its error result. *)
Definition perform (c : Client) (op : Operation) : M (option error) :=
  match op with
  | OpGetLogs n => let* r := GetLogs c n in ret (errorOf r)
  | OpStreamLogs w n => StreamLogs c w n
  | OpGetWorkflowStatus n => let* r := GetWorkflowStatus c n in ret (errorOf r)
  | OpGetWorkflows p t => let* r := GetWorkflows c p t in ret (errorOf r)
  | OpDiff i => let* r := Diff c i in ret (errorOf r)
  | OpExecuteWorkflow i => let* r := ExecuteWorkflow c i in ret (errorOf r)
  | OpSync i => let* r := Sync c i in ret (errorOf r)
  end.

(** The requests an operation hands to the transport. *)
Definition issued (c : Client) (op : Operation) : list Request :=
  sent (snd (perform c op (mkWorld [] ""))).

(** The two pure status queries. *)
Definition isStatusQuery (op : Operation) : bool :=
  match op with
  | OpGetWorkflowStatus _ | OpGetWorkflows _ _ => true
  | _ => false
  end.

(** The write operations, which POST a body. *)
Definition isWrite (op : Operation) : bool :=
  match op with
  | OpDiff _ | OpExecuteWorkflow _ | OpSync _ => true
  | _ => false
  end.

(** What [targetOperation] sends: a POST that carries the token and
    whose body is the encoding of a request that passed
    validation. *)
Definition validatedPost (c : Client) (input : TargetOperationInput) (ty : string)
           (req : Request) : Prop :=
  requests.TargetOperation.Validate (targetReq input ty) = None /\
  Method req = MethodPost /\
  carriesToken c req /\
  exists body, json_Marshal_TargetOperation (targetReq input ty) = Ok body /\
               Body req = Some body.
End WithStd.
End Observations.

(* ===================================================================== *)
(** * Sample collaborators and inputs                                      *)
(* ===================================================================== *)

Module Samples.
Import http api.

(** [arn.IsARN] as the SDK has it: the prefix [arn:] and at least five
    colons. *)
Definition sampleIsARN (s : string) : bool :=
  String.prefix "arn:" s &&
  (5 <=? length (filter (fun c => Ascii.eqb c ":") (list_ascii_of_string s)))%nat.

(** A stand-in for the reference parser: it refuses the empty string
    and anything with a space. *)
Definition sampleParseAnyReference (s : string) : option error :=
  if String.eqb s "" || existsb (Ascii.eqb " ") (list_ascii_of_string s)
  then Some (errors_New "invalid reference format")
  else None.

Definition sampleParsers : Parsers :=
  {| arn_IsARN := sampleIsARN;
     reference_ParseAnyReference := sampleParseAnyReference |}.

Definition dq : string := String (ascii_of_nat 34) "".

Definition jsonField (key value : string) : string :=
  dq +:+ key +:+ dq +:+ ":" +:+ dq +:+ value +:+ dq.

(** The JSON body of a target operation, for values that need no
    escaping. *)
Definition sampleMarshalTargetOperation (r : requests.TargetOperation.t) : result string :=
  Ok ("{" +:+ jsonField "path" (requests.TargetOperation.Path r) +:+ ","
          +:+ jsonField "sha" (requests.TargetOperation.SHA r) +:+ ","
          +:+ jsonField "type" (requests.TargetOperation.Type_ r) +:+ "}").

Definition sampleStd : Std :=
  {| url_Parse := fun _ => None;
     json_Marshal_TargetOperation := sampleMarshalTargetOperation;
     json_Marshal_ExecuteWorkflow := fun _ => Ok "{}";
     json_Unmarshal_GetLogs := fun body => Ok (responses.mkGetLogs [body]);
     json_Unmarshal_GetWorkflowStatus :=
       fun _ => Ok (responses.mkGetWorkflowStatus "wf-1" "succeeded" "1" "2");
     json_Unmarshal_GetWorkflows := fun _ => Ok ["wf-1"];
     json_Unmarshal_TargetOperation := fun _ => Ok (responses.mkTargetOperation "wf-1");
     json_Unmarshal_ExecuteWorkflow := fun _ => Ok (responses.mkExecuteWorkflow "wf-1") |}.

(** A transport that answers every request with the given status and
    a two-chunk body. *)
Definition answering (status : Z) : httpClient :=
  fun _ => Ok (mkResponse status (io.mkReader ["first line;"; "second line;"] None)).

Definition sampleClient : Client :=
  mkClient "secret-token" (answering 200) "https://localhost:8443".

Definition notFoundClient : Client :=
  mkClient "secret-token" (answering 404) "https://localhost:8443".

(** An in-memory buffer. *)
Definition buffer : io.Writer := io.mkWriter (fun _ p => (String.length p, None)).

Definition emptyWorld : World := mkWorld [] "".

Definition sampleInput : TargetOperationInput :=
  mkTargetOperationInput "infra/" "demo-proj" "abc123" "demo_target".

(** The request a Diff of [sampleInput] hands to the transport. *)
Definition samplePost : Request :=
  mkRequest "POST" "https://localhost:8443/projects/demo-proj/targets/demo_target/operations"
    (<["Authorization" := ["secret-token"]]> ∅)
    (Some ("{" +:+ jsonField "path" "infra/" +:+ "," +:+ jsonField "sha" "abc123" +:+ ","
               +:+ jsonField "type" "diff" +:+ "}")).

Definition logstreamRequest : Request :=
  mkRequest "GET" "https://localhost:8443/workflows/wf-1/logstream" ∅ None.

(** An input without a commit hash. *)
Definition noSHAInput : TargetOperationInput :=
  mkTargetOperationInput "infra/" "demo-proj" "" "demo_target".

Definition shaRequired : error :=
  govalidator_Errors [mkFieldError "sha" (fmt_Errorf "sha is required" []) true "required"].

Definition sampleProperties (doc : string) : requests.TargetProperties.t :=
  requests.TargetProperties.mk "vault"
    ["arn:aws:iam::012345678901:policy/one"] doc "arn:aws:iam::012345678901:role/deploy".

Definition sampleTarget (doc ty : string) : requests.CreateTarget.t :=
  requests.CreateTarget.mk "demo_target" (sampleProperties doc) ty.

(** A target wrong in every respect: type, name, credential type and
    role ARN. *)
Definition wrongTarget : requests.CreateTarget.t :=
  requests.CreateTarget.mk "x-1" (requests.TargetProperties.mk "plain" [] "" "role") "gcp_project".

Definition sampleWorkflow (ty framework template : string) (env : gmap string string)
  : requests.CreateWorkflow.t :=
  requests.CreateWorkflow.mk
    (<["execute" := ["plan"]]> (<["init" := ["-upgrade"]]> ∅))
    env framework
    {["execute_container_image_uri" := "registry.example.com/tools/terraform:1.0"]}
    "demoproj" "demo_target" ty template.

(** A request with the given parameters and nothing else. *)
Definition withParameters (ps : gmap string string) : requests.CreateWorkflow.t :=
  requests.CreateWorkflow.mk ∅ ∅ "" ps "" "" "" "".

(** The repository of a project followed by a path inside it. *)
Definition gitURIWithPath : string :=
  "https://github.com/argoproj-labs/argo-cloudops.git/tree/main".

(** A map that mixes an allowed key with another one. *)
Definition mixedArguments : gmap string (list string) :=
  <["execute" := ["plan"]]> (<["extra" := ["x"]]> ∅).

(** A request whose only argument list is that of [execute]. *)
Definition executeOnly : requests.CreateWorkflow.t :=
  requests.CreateWorkflow.mk {["execute" := ["plan"]]} ∅ "" ∅ "" "" "" "".
End Samples.

(* ===================================================================== *)
(** * Package [api]: the earlier revision of the client                   *)
(* ===================================================================== *)

(** The revision whose [Diff] takes the project, target, sha and path
    one by one and whose reads are written out in full.  Its request
    and response structs have the fields and [json] names of the
    records above, so the same encoders and decoders serve them. *)
Module apiV1.
Import http api.

Definition GetWorkflowStatusResponse : Type := responses.GetWorkflowStatus.
Definition GetWorkflowsResponse : Type := responses.GetWorkflows.
Definition targetOperationRequest : Type := requests.TargetOperation.t.
Definition DiffResponse : Type := responses.TargetOperation.
Definition ExecuteWorkflowOutput : Type := responses.ExecuteWorkflow.

Section WithStd.
Context {S : Std}.

(** [GetWorkflowStatus] gets the status of a workflow. *)
Definition GetWorkflowStatus (c : Client) (name : string)
  : M (result GetWorkflowStatusResponse) :=
  let url := endpoint c +:+ "/workflows/" +:+ name in
  match NewRequestWithContext MethodGet url None with
  | Err err => ret (Err (fmt_Errorf "unable to create api request: %w" [ArgError err]))
  | Ok req =>
      let* r := Do c req in
      match r with
      | Err err => ret (Err (fmt_Errorf "unable to make api call: %w" [ArgError err]))
      | Ok resp =>
          let '(body, err) := io.ReadAll (RespBody resp) in
          match err with
          | Some err =>
              ret (Err (fmt_Errorf "error reading response body. status code: %d, error: %w"
                                   [ArgInt (StatusCode resp); ArgError err]))
          | None =>
              if negb (StatusCode resp =? StatusOK)%Z
              then ret (Err (fmt_Errorf "received unexpected status code: %d, body: %s"
                                        [ArgInt (StatusCode resp); ArgString body]))
              else
                match json_Unmarshal_GetWorkflowStatus body with
                | Err err => ret (Err (fmt_Errorf "unable to parse response: %w" [ArgError err]))
                | Ok wfResp => ret (Ok wfResp)
                end
          end
      end
  end.

(** [GetWorkflows] gets the list of workflows for a project and
    target. *)
Definition GetWorkflows (c : Client) (project target : string)
  : M (result GetWorkflowsResponse) :=
  let url := endpoint c +:+ "/projects/" +:+ project +:+ "/targets/" +:+ target
                      +:+ "/workflows" in
  match NewRequestWithContext MethodGet url None with
  | Err err => ret (Err (fmt_Errorf "unable to create api request: %w" [ArgError err]))
  | Ok req =>
      let* r := Do c req in
      match r with
      | Err err => ret (Err (fmt_Errorf "unable to make api call: %w" [ArgError err]))
      | Ok resp =>
          let '(body, err) := io.ReadAll (RespBody resp) in
          match err with
          | Some err =>
              ret (Err (fmt_Errorf "error reading response body. status code: %d, error: %w"
                                   [ArgInt (StatusCode resp); ArgError err]))
          | None =>
              if negb (StatusCode resp =? StatusOK)%Z
              then ret (Err (fmt_Errorf "received unexpected status code: %d, body: %s"
                                        [ArgInt (StatusCode resp); ArgString body]))
              else
                match json_Unmarshal_GetWorkflows body with
                | Err err => ret (Err (fmt_Errorf "unable to parse response: %w" [ArgError err]))
                | Ok wfResp => ret (Ok wfResp)
                end
          end
      end
  end.

(** [Diff] submits a "diff" for the provided project target. *)
Definition Diff (c : Client) (project target sha path : string) : M (result DiffResponse) :=
  let url := endpoint c +:+ "/projects/" +:+ project +:+ "/targets/" +:+ target
                      +:+ "/operations" in
  let targetReq : targetOperationRequest := requests.TargetOperation.mk path sha diff in
  match json_Marshal_TargetOperation targetReq with
  | Err err =>
      ret (Err (fmt_Errorf "unable to create api request body, error: %w" [ArgError err]))
  | Ok reqBody =>
      match NewRequestWithContext MethodPost url (Some reqBody) with
      | Err err => ret (Err (fmt_Errorf "unable to create api request: %w" [ArgError err]))
      | Ok req =>
          let req := Add "Authorization" (authToken c) req in
          let* r := Do c req in
          match r with
          | Err err => ret (Err (fmt_Errorf "unable to make api call: %w" [ArgError err]))
          | Ok resp =>
              let '(body, err) := io.ReadAll (RespBody resp) in
              match err with
              | Some err =>
                  ret (Err (fmt_Errorf
                              "error reading response body. status code: %d, error: %w"
                              [ArgInt (StatusCode resp); ArgError err]))
              | None =>
                  if (300 <=? StatusCode resp)%Z || (StatusCode resp <? 200)%Z
                  then ret (Err (fmt_Errorf
                                   "received unexpected status code: %d, body: %s"
                                   [ArgInt (StatusCode resp); ArgString body]))
                  else
                    match json_Unmarshal_TargetOperation body with
                    | Err err =>
                        ret (Err (fmt_Errorf "unable to parse response: %w" [ArgError err]))
                    | Ok diffResp => ret (Ok diffResp)
                    end
              end
          end
      end
  end.

(** [ExecuteWorkflow] submits a workflow execution request. *)
Definition ExecuteWorkflow (c : Client) (input : ExecuteWorkflowInput)
  : M (result ExecuteWorkflowOutput) :=
  let url := endpoint c +:+ "/workflows" in
  match json_Marshal_ExecuteWorkflow input with
  | Err err =>
      ret (Err (fmt_Errorf "unable to create api request body, error: %w" [ArgError err]))
  | Ok reqBody =>
      match NewRequestWithContext MethodPost url (Some reqBody) with
      | Err err => ret (Err (fmt_Errorf "unable to create api request: %w" [ArgError err]))
      | Ok req =>
          let req := Add "Authorization" (authToken c) req in
          let* r := Do c req in
          match r with
          | Err err => ret (Err (fmt_Errorf "unable to make api call: %w" [ArgError err]))
          | Ok resp =>
              let '(body, err) := io.ReadAll (RespBody resp) in
              match err with
              | Some err =>
                  ret (Err (fmt_Errorf
                              "error reading response body. status code: %d, error: %w"
                              [ArgInt (StatusCode resp); ArgError err]))
              | None =>
                  if (300 <=? StatusCode resp)%Z || (StatusCode resp <? 200)%Z
                  then ret (Err (fmt_Errorf
                                   "received unexpected status code: %d, body: %s"
                                   [ArgInt (StatusCode resp); ArgString body]))
                  else
                    match json_Unmarshal_ExecuteWorkflow body with
                    | Err err =>
                        ret (Err (fmt_Errorf "unable to parse response: %w" [ArgError err]))
                    | Ok output => ret (Ok output)
                    end
              end
          end
      end
  end.
End WithStd.
End apiV1.

(* ===================================================================== *)
(** * Package [env]                                                       *)
(* ===================================================================== *)

Module env.

Definition appPrefix : string := "ARGO_CLOUDOPS".

Record Vars : Type := mkVars {
  AdminSecret : string;
  VaultRole : string;
  VaultSecret : string;
  VaultAddress : string;
  ArgoAddress : string;
  ArgoNamespace : string;
  ConfigFilePath : string;
  SSHPEMFile : string;
  LogLevel : string;
  Port : Z;
  DbHost : string;
  DbUser : string;
  DbPassword : string;
  DbName : string
}.

(** The package-level variables: [instance], whether [once] has run
    its function, and [err]. *)
Record Globals : Type := mkGlobals {
  instance : Vars;
  once : bool;
  err : option error
}.

(** The variables as the program starts. *)
Definition initial : Globals :=
  mkGlobals (mkVars "" "" "" "" "" "" "" "" "" 0 "" "" "" "") false None.

Definition validate (values : Vars) : option error :=
  if (String.length (AdminSecret values) <? 16)%nat
  then Some (errors_New "admin secret must be at least 16 characers long")
  else None.

Section WithEnvconfig.
(** [envconfig.Process(prefix, &instance)] under a given process
    environment: what it leaves in the struct, and its error. *)
Context {Environ : Type}.
Variable envconfig_Process : Environ -> string -> Vars -> Vars * option error.

(** The function handed to [once.Do]. *)
Definition load (environ : Environ) (g : Globals) : Globals :=
  let '(inst, e) := envconfig_Process environ appPrefix (instance g) in
  match e with
  | Some e => mkGlobals inst true (Some e)
  | None => mkGlobals inst true (validate inst)
  end.

Definition GetEnv (environ : Environ) (g : Globals) : (Vars * option error) * Globals :=
  let g' := if once g then g else load environ g in
  ((instance g', err g'), g').
End WithEnvconfig.

End env.

(* ===================================================================== *)
(** * Further vocabulary                                                  *)
(* ===================================================================== *)

Module Acceptance.
Import Regexp.

Definition chars (s : string) : list ascii := list_ascii_of_string s.

(** Every byte of the string is in the class. *)
Definition allOf (p : ascii -> bool) (s : string) : bool := forallb p (chars s).

(** The length in bytes lies between the bounds. *)
Definition lengthIn (lo hi : nat) (s : string) : bool :=
  (lo <=? String.length s)%nat && (String.length s <=? hi)%nat.

(** A letter followed by letters, digits and underscores. *)
Definition identifier (s : string) : bool :=
  match s with
  | EmptyString => false
  | String c rest => alpha c && allOf word rest
  end.

(** A validator of a tag accepts the value. *)
Definition passes (cv : gmap string (string -> bool)) (v : string)
           (o : govalidator.tagOption) : bool :=
  match govalidator.tagRule o with
  | govalidator.required => true
  | govalidator.alphanum => govalidator.IsAlphanumeric v
  | govalidator.stringlength lo hi => govalidator.StringLength v lo hi
  | govalidator.custom n =>
      match (cv !! n : option (string -> bool)) with
      | Some f => f v
      | None => false
      end
  end.

(** An optional name: empty, or well formed and of 4 to 32 bytes. *)
Definition optionalName (wellFormed : string -> bool) (s : string) : Prop :=
  s = "" \/ (wellFormed s = true /\ lengthIn 4 32 s = true).

End Acceptance.

Module Effects.
Import http api.

(** Running [m] hands nothing to the transport. *)
Definition silent {A : Type} (m : M A) : Prop :=
  forall w, sent (snd (m w)) = sent w.

(** Running [m] hands at most one request to the transport. *)
Definition atMostOnce {A : Type} (m : M A) : Prop :=
  forall w, exists l, sent (snd (m w)) = sent w ++ l /\ length l <= 1.

(** Running [m] writes nothing to the caller's writer. *)
Definition keepsSink {A : Type} (m : M A) : Prop :=
  forall w, sink (snd (m w)) = sink w.

(** A status of the 2xx range. *)
Definition is2xx (code : Z) : bool := (200 <=? code)%Z && (code <? 300)%Z.

(** The GET of a URL as the client builds it. *)
Definition getOf (url : string) : Request := mkRequest MethodGet url ∅ None.

(** The POST of a body to a URL as the client builds it, token
    attached. *)
Definition postOf (c : Client) (url body : string) : Request :=
  Add "Authorization" (authToken c) (mkRequest MethodPost url ∅ (Some body)).

(** The whole body of a response. *)
Definition bodyOf (resp : Response) : string := io.joinChunks (io.chunks (RespBody resp)).

(** The errors of the client. *)
Definition unexpectedStatus (resp : Response) : error :=
  fmt_Errorf "received unexpected status code: %d, body: %s"
             [ArgInt (StatusCode resp); ArgString (bodyOf resp)].

Definition transportError (e : error) : error :=
  fmt_Errorf "unable to make api call: %w" [ArgError e].

Definition readBodyError (resp : Response) (e : error) : error :=
  fmt_Errorf "error reading response body. status code: %d, error: %w"
             [ArgInt (StatusCode resp); ArgError e].

(** The result of decoding a body, with a decoding failure wrapped. *)
Definition decoded {A : Type} (r : result A) : result A :=
  match r with
  | Ok output => Ok output
  | Err err => Err (fmt_Errorf "unable to parse response: %w" [ArgError err])
  end.

(** The URL of the operations of a target. *)
Definition operationsURL (c : Client) (input : TargetOperationInput) : string :=
  endpoint c +:+ "/projects/" +:+ ProjectName input +:+ "/targets/" +:+ TargetName input
             +:+ "/operations".

(** The world after one more request. *)
Definition afterSending (w : World) (req : Request) : World :=
  mkWorld (sent w ++ [req]) (sink w).

End Effects.

(* ===================================================================== *)
(** * Further sample inputs                                               *)
(* ===================================================================== *)

Module Cases.
Import http api Samples.

(** A well-formed target with six policy ARNs, none of them an ARN. *)
Definition sixPolicies : requests.CreateTarget.t :=
  requests.CreateTarget.mk "demo_target"
    (requests.TargetProperties.mk "vault" (repeat "not an arn" 6) ""
                                  "arn:aws:iam::012345678901:role/deploy")
    "aws_account".

(** A transport that answers 201 Created. *)
Definition createdClient : Client :=
  mkClient "secret-token" (answering 201) "https://localhost:8443".

(** A transport that cannot connect. *)
Definition refused : error := errors_New "connection refused".

Definition downClient : Client :=
  mkClient "secret-token" (fun _ => Err refused) "https://localhost:8443".

(** A transport whose body breaks off after its first chunk. *)
Definition brokenOff : error := errors_New "unexpected EOF".

Definition brokenResponse : Response :=
  mkResponse 200 (io.mkReader ["first line;"] (Some brokenOff)).

Definition brokenClient : Client :=
  mkClient "secret-token" (fun _ => Ok brokenResponse) "https://localhost:8443".

Definition answer (status : Z) : Response :=
  mkResponse status (io.mkReader ["first line;"; "second line;"] None).

(** The body of a Diff of [sampleInput], and that of [noSHAInput]. *)
Definition sampleBody : string :=
  "{" +:+ jsonField "path" "infra/" +:+ "," +:+ jsonField "sha" "abc123" +:+ ","
      +:+ jsonField "type" "diff" +:+ "}".

Definition noSHABody : string :=
  "{" +:+ jsonField "path" "infra/" +:+ "," +:+ jsonField "sha" "" +:+ ","
      +:+ jsonField "type" "diff" +:+ "}".

(** The keys of an arguments map in the two orders a two-key map can
    be visited. *)
Definition keysOneWay : list string := ["execute"; "bogus"].
Definition keysOtherWay : list string := ["bogus"; "execute"].

(** A process environment, and an [envconfig.Process] that reads the
    admin secret from it. *)
Definition environment : Type := list (string * string).

Fixpoint getenv (key : string) (environ : environment) : option string :=
  match environ with
  | [] => None
  | (k, v) :: rest => if String.eqb k key then Some v else getenv key rest
  end.

Definition withAdminSecret (secret : string) (v : env.Vars) : env.Vars :=
  env.mkVars secret (env.VaultRole v) (env.VaultSecret v) (env.VaultAddress v)
             (env.ArgoAddress v) (env.ArgoNamespace v) (env.ConfigFilePath v)
             (env.SSHPEMFile v) (env.LogLevel v) (env.Port v) (env.DbHost v)
             (env.DbUser v) (env.DbPassword v) (env.DbName v).

Definition sampleProcess (environ : environment) (prefix : string) (v : env.Vars)
  : env.Vars * option error :=
  match getenv (prefix +:+ "_ADMIN_SECRET") environ with
  | Some secret => (withAdminSecret secret v, None)
  | None => (v, Some (errors_New "required key ARGO_CLOUDOPS_ADMIN_SECRET missing value"))
  end.

Definition goodEnvironment : environment :=
  [("ARGO_CLOUDOPS_ADMIN_SECRET", "0123456789abcdef")].

Definition shortEnvironment : environment :=
  [("ARGO_CLOUDOPS_ADMIN_SECRET", "too short")].

End Cases.

(* ===================================================================== *)
(** * Properties                                                          *)
(* ===================================================================== *)

(** ** The matcher decides the language of the expression *)
Module RegexpFacts.
Import Regexp.

Lemma nullable_spec r : nullable r = true <-> Matches r [].
Proof.
  split.
  - induction r; simpl; intros H; try discriminate.
    + constructor.
    + apply andb_true_iff in H as [H1 H2].
      change (@nil ascii) with (@nil ascii ++ []). constructor; auto.
    + apply orb_true_iff in H as [H | H]; [apply MAltL | apply MAltR]; auto.
    + constructor.
  - intros H. remember [] as s eqn:Es. induction H; simpl; subst; try discriminate; auto.
    + apply app_eq_nil in Es as [-> ->]. rewrite IHMatches1, IHMatches2; auto.
    + rewrite IHMatches; auto.
    + rewrite IHMatches; auto. apply orb_true_r.
Qed.

Lemma Matches_Void s : ~ Matches Void s.
Proof. intros H; inversion H. Qed.

Ltac absurd_void :=
  match goal with
  | H : Matches Void _ |- _ => exfalso; exact (Matches_Void _ H)
  end.

Lemma cat_spec r1 r2 s : Matches (cat r1 r2) s <-> Matches (Cat r1 r2) s.
Proof.
  split; intros H.
  - destruct r1, r2; simpl in H; try exact H; try absurd_void;
      (apply (MCat Eps _ [] s); [apply MEps | exact H]).
  - inversion H as [| | ? ? u v Hu Hv | | | |]; subst.
    destruct r1, r2; simpl; try absurd_void; try (constructor; assumption);
      inversion Hu; subst; exact Hv.
Qed.

Lemma alt_spec r1 r2 s : Matches (alt r1 r2) s <-> Matches (Alt r1 r2) s.
Proof.
  split; intros H.
  - destruct r1, r2; simpl in H; try exact H;
      solve [ apply MAltR; exact H | apply MAltL; exact H ].
  - inversion H; subst; destruct r1, r2; simpl; try absurd_void;
      solve [ assumption | apply MAltL; assumption | apply MAltR; assumption ].
Qed.

(** A non-empty match of [Star r] starts with a non-empty match of [r]. *)
Lemma Matches_Star_cons r c s :
  Matches (Star r) (c :: s) ->
  exists u v, s = u ++ v /\ Matches r (c :: u) /\ Matches (Star r) v.
Proof.
  intros H. remember (Star r) as r' eqn:Er. remember (c :: s) as w eqn:Ew.
  revert c s Ew.
  induction H; intros c' s' Ew; try discriminate.
  injection Er as ->.
  destruct u as [| a u]; simpl in Ew.
  - apply IHMatches2; auto.
  - injection Ew as -> <-. exists u, v. auto.
Qed.

Lemma Matches_Cat_inv r1 r2 s :
  Matches (Cat r1 r2) s -> exists u v, s = u ++ v /\ Matches r1 u /\ Matches r2 v.
Proof. intros H. inversion H; subst. eauto. Qed.

Lemma Matches_Alt_inv r1 r2 s :
  Matches (Alt r1 r2) s -> Matches r1 s \/ Matches r2 s.
Proof. intros H. inversion H; subst; auto. Qed.

Lemma Matches_Class_inv p s :
  Matches (Class p) s -> exists c, s = [c] /\ p c = true.
Proof. intros H. inversion H; subst. eauto. Qed.

Lemma Matches_Eps_inv s : Matches Eps s -> s = [].
Proof. intros H. inversion H; subst. reflexivity. Qed.

Lemma MCat_cons r1 r2 c u v :
  Matches r1 (c :: u) -> Matches r2 v -> Matches (Cat r1 r2) (c :: u ++ v).
Proof. intros H1 H2. apply (MCat r1 r2 (c :: u) v); assumption. Qed.

Lemma deriv_spec c r s : Matches (deriv c r) s <-> Matches r (c :: s).
Proof.
  revert s. induction r as [| | p | r1 IH1 r2 IH2 | r1 IH1 r2 IH2 | r IH]; intros s; simpl.
  - split; intros H; absurd_void.
  - split; intros H; [absurd_void | apply Matches_Eps_inv in H; discriminate].
  - destruct (p c) eqn:Ep; split; intros H.
    + apply Matches_Eps_inv in H as ->. apply MClass; assumption.
    + apply Matches_Class_inv in H as (c' & E & _). injection E as _ ->. apply MEps.
    + absurd_void.
    + apply Matches_Class_inv in H as (c' & E & Hc). injection E as <- _. congruence.
  - destruct (nullable r1) eqn:En.
    + rewrite alt_spec. split; intros H.
      * apply Matches_Alt_inv in H as [H | H].
        -- apply cat_spec, Matches_Cat_inv in H as (u & v & -> & Hu & Hv).
           apply MCat_cons; [apply IH1 |]; assumption.
        -- apply (MCat r1 r2 [] (c :: s)); [apply nullable_spec | apply IH2]; assumption.
      * apply Matches_Cat_inv in H as (u & v & E & Hu & Hv).
        destruct u as [| a u]; simpl in E.
        -- subst v. apply MAltR, IH2; assumption.
        -- injection E as <- ->. apply MAltL, cat_spec, MCat; [apply IH1 |]; assumption.
    + rewrite cat_spec. split; intros H.
      * apply Matches_Cat_inv in H as (u & v & -> & Hu & Hv).
        apply MCat_cons; [apply IH1 |]; assumption.
      * apply Matches_Cat_inv in H as (u & v & E & Hu & Hv).
        destruct u as [| a u]; simpl in E.
        -- apply nullable_spec in Hu. congruence.
        -- injection E as <- ->. apply MCat; [apply IH1 |]; assumption.
  - rewrite alt_spec. split; intros H; apply Matches_Alt_inv in H as [H | H].
    + apply MAltL, IH1; assumption.
    + apply MAltR, IH2; assumption.
    + apply MAltL, IH1; assumption.
    + apply MAltR, IH2; assumption.
  - rewrite cat_spec. split; intros H.
    + apply Matches_Cat_inv in H as (u & v & -> & Hu & Hv).
      apply (MStarS r (c :: u) v); [apply IH |]; assumption.
    + apply Matches_Star_cons in H as (u & v & -> & Hu & Hv).
      apply MCat; [apply IH |]; assumption.
Qed.

Lemma matchAll_spec r s : matchAll r s = true <-> Matches r s.
Proof.
  revert r. induction s as [| c s IH]; intros r; simpl.
  - apply nullable_spec.
  - rewrite IH. apply deriv_spec.
Qed.

Lemma matchPrefix_spec r s :
  matchPrefix r s = true <-> exists u v, s = u ++ v /\ Matches r u.
Proof.
  revert r. induction s as [| c s IH]; intros r; simpl.
  - rewrite orb_false_r, nullable_spec. split.
    + intros H. exists [], []. auto.
    + intros (u & v & E & H). symmetry in E. apply app_eq_nil in E as [-> _]. auto.
  - rewrite orb_true_iff, IH, nullable_spec. split.
    + intros [H | (u & v & -> & H)].
      * exists [], (c :: s). auto.
      * exists (c :: u), v. split; auto. apply deriv_spec; auto.
    + intros (u & v & E & H). destruct u as [| a u]; simpl in E.
      * left; auto.
      * injection E as <- ->. right. exists u, v. split; auto. apply deriv_spec; auto.
Qed.

Lemma matchSuffix_spec r s :
  matchSuffix r s = true <-> exists u v, s = u ++ v /\ Matches r v.
Proof.
  induction s as [| c s IH]; simpl.
  - rewrite orb_false_r, nullable_spec. split.
    + intros H. exists [], []. auto.
    + intros (u & v & E & H). symmetry in E. apply app_eq_nil in E as [_ ->]. auto.
  - rewrite orb_true_iff, IH.
    change (matchAll (deriv c r) s) with (matchAll r (c :: s)).
    rewrite matchAll_spec. split.
    + intros [H | (u & v & -> & H)].
      * exists [], (c :: s). auto.
      * exists (c :: u), v. auto.
    + intros (u & v & E & H). destruct u as [| a u]; simpl in E.
      * subst. left; auto.
      * injection E as <- ->. right. exists u, v. auto.
Qed.

(** [search] finds a match anywhere: the unanchored semantics. *)
Lemma search_spec r s :
  search r s = true <-> exists pre mid post, s = pre ++ mid ++ post /\ Matches r mid.
Proof.
  induction s as [| c s IH].
  - simpl. rewrite !orb_false_r, nullable_spec. split.
    + intros H. exists [], [], []. auto.
    + intros (pre & mid & post & E & H). symmetry in E.
      apply app_eq_nil in E as [_ E]. apply app_eq_nil in E as [-> _]. auto.
  - change (search r (c :: s)) with (matchPrefix r (c :: s) || search r s).
    rewrite orb_true_iff, IH, matchPrefix_spec. split.
    + intros [(u & v & E & H) | (pre & mid & post & -> & H)].
      * exists [], u, v. auto.
      * exists (c :: pre), mid, post. auto.
    + intros (pre & mid & post & E & H). destruct pre as [| a pre]; simpl in E.
      * left. exists mid, post. auto.
      * injection E as <- ->. right. exists pre, mid, post. auto.
Qed.

Lemma MatchString_anchored r s :
  MatchString (MustCompile true r true) s = true <-> Matches r (list_ascii_of_string s).
Proof. apply matchAll_spec. Qed.

Lemma MatchString_unanchored r s :
  MatchString (MustCompile false r false) s = true <->
  exists pre mid post, list_ascii_of_string s = pre ++ mid ++ post /\ Matches r mid.
Proof. apply search_spec. Qed.

End RegexpFacts.

(** ** The rule predicates *)
Module ValidationFacts.
Import Regexp RegexpFacts validations Samples.

Lemma list_ascii_of_string_app s t :
  list_ascii_of_string (s +:+ t) = list_ascii_of_string s ++ list_ascii_of_string t.
Proof. induction s as [| c s IH]; simpl; [reflexivity | rewrite IH; reflexivity]. Qed.

(** [isValidGitURI] looks for a match anywhere in the string. *)
Lemma isValidGitURI_contains s :
  isValidGitURI s = true <->
  exists pre mid post,
    list_ascii_of_string s = pre ++ mid ++ post /\ Matches (body gitURIPattern) mid.
Proof. apply MatchString_unanchored. Qed.

(** Hence whatever surrounds an accepted string is accepted too. *)
Lemma isValidGitURI_extend pre s post :
  isValidGitURI s = true -> isValidGitURI (pre +:+ s +:+ post) = true.
Proof.
  rewrite !isValidGitURI_contains. intros (u & mid & v & E & H).
  exists (list_ascii_of_string pre ++ u), mid, (v ++ list_ascii_of_string post).
  split; [| exact H].
  rewrite !list_ascii_of_string_app, E, <- !app_assoc. reflexivity.
Qed.

(** C5 (defect of the code).  The specification has [isValidGitURI]
    reject every string that does not terminate in [.git] or [.git/].
    The pattern carries no [^] and no [$], so a string that merely
    contains a git URI is accepted: this one ends in [/tree/main],
    neither in [.git] nor in [.git/], and [isValidGitURI] returns true
    on it. *)
Theorem isValidGitURI_accepts_trailing_path :
  isValidGitURI gitURIWithPath = true /\
  strings_HasSuffix gitURIWithPath ".git" = false /\
  strings_HasSuffix gitURIWithPath ".git/" = false.
Proof. repeat split; vm_compute; reflexivity. Qed.

(** The order in which the keys of a map are visited is irrelevant to
    [isValidArgument]. *)
Lemma isValidArgumentKeys_true keys :
  isValidArgumentKeys keys = true <->
  exists k, k ∈ keys /\ (k = "execute" \/ k = "init").
Proof.
  induction keys as [| key rest IH]; simpl.
  - split; [discriminate | intros (k & Hk & _); inversion Hk].
  - destruct (String.eqb key "execute" || String.eqb key "init") eqn:E.
    + split; [intros _ | reflexivity].
      exists key. split; [left |].
      apply orb_true_iff in E as [E | E]; apply String.eqb_eq in E; auto.
    + rewrite IH. apply orb_false_iff in E as [E1 E2].
      apply String.eqb_neq in E1, E2.
      split; intros (k & Hk & Hv).
      * exists k. split; [right; exact Hk | exact Hv].
      * exists k. split; [| exact Hv].
        apply elem_of_cons in Hk as [-> | Hk]; [destruct Hv; contradiction | exact Hk].
Qed.

Lemma isValidArgumentKeys_perm keys keys' :
  keys ≡ₚ keys' -> isValidArgumentKeys keys = isValidArgumentKeys keys'.
Proof.
  intros Hp.
  destruct (isValidArgumentKeys keys) eqn:E1, (isValidArgumentKeys keys') eqn:E2;
    try reflexivity.
  - apply isValidArgumentKeys_true in E1 as (k & Hk & Hv).
    rewrite Hp in Hk.
    rewrite <- E2. symmetry. apply isValidArgumentKeys_true. eauto.
  - apply isValidArgumentKeys_true in E2 as (k & Hk & Hv).
    rewrite <- Hp in Hk.
    rewrite <- E1. apply isValidArgumentKeys_true. eauto.
Qed.

Lemma elem_of_map_keys {V : Type} (m : gmap string V) (k : string) :
  k ∈ (map_to_list m).*1 <-> k ∈ dom m.
Proof.
  rewrite elem_of_dom, list_elem_of_fmap. split.
  - intros ([k' v] & -> & H). apply elem_of_map_to_list in H. exists v. exact H.
  - intros [v H]. exists (k, v). split; [reflexivity |]. apply elem_of_map_to_list. exact H.
Qed.

(** C4, as stated, fails: [isValidArgument] would return true only
    when the key set is a subset of [{execute, init}]; on a map with
    the keys [execute] and [extra] it returns true although [extra] is
    not an allowed key. *)
Lemma isValidArgument_mixed_keys_accepted :
  isValidArgument mixedArguments = true /\
  ~ dom mixedArguments ⊆ ({["execute"; "init"]} : gset string).
Proof.
  split; [vm_compute; reflexivity |].
  intros H. assert (Hin : "extra" ∈ dom mixedArguments).
  { unfold mixedArguments. rewrite !dom_insert_L. set_solver. }
  apply H in Hin. rewrite elem_of_union, !elem_of_singleton in Hin.
  destruct Hin; discriminate.
Qed.

(** C4 (amended).  [isValidArgument] is a presence guard: it returns
    true exactly when at least one of the keys [execute] and [init]
    is present, whatever other keys the map has. *)
Theorem isValidArgument_iff_some_allowed_key {V : Type} (m : gmap string V) :
  isValidArgument m = true <-> "execute" ∈ dom m \/ "init" ∈ dom m.
Proof.
  unfold isValidArgument. rewrite isValidArgumentKeys_true. split.
  - intros (k & Hk & [-> | ->]); apply elem_of_map_keys in Hk; auto.
  - intros [H | H]; apply elem_of_map_keys in H; eauto.
Qed.

End ValidationFacts.

(** ** The request models *)
Module RequestFacts.
Import validations requests ValidationFacts Observations Samples.

(** *** Arguments of CreateWorkflow *)
Section Arguments.
Import CreateWorkflow.

Lemma validateArgumentKeys_None keys :
  validateArgumentKeys keys = None <->
  forall k, k ∈ keys -> k = "execute" \/ k = "init".
Proof.
  induction keys as [| key rest IH]; simpl.
  - split; [intros _ k Hk; inversion Hk | reflexivity].
  - destruct (String.eqb key "execute") eqn:E1; simpl.
    + apply String.eqb_eq in E1 as ->. rewrite IH. split.
      * intros H k Hk. apply elem_of_cons in Hk as [-> | Hk]; auto.
      * intros H k Hk. apply H. right. exact Hk.
    + destruct (String.eqb key "init") eqn:E2; simpl.
      * apply String.eqb_eq in E2 as ->. rewrite IH. split.
        -- intros H k Hk. apply elem_of_cons in Hk as [-> | Hk]; auto.
        -- intros H k Hk. apply H. right. exact Hk.
      * apply String.eqb_neq in E1, E2. split; [discriminate |].
        intros H. destruct (H key) as [? | ?]; [left | |]; contradiction.
Qed.

(** The visiting order of the keys does not change the verdict. *)
Lemma validateArgumentKeys_perm keys keys' :
  keys ≡ₚ keys' -> validateArgumentKeys keys = validateArgumentKeys keys'.
Proof.
  intros Hp.
  assert (Hsome : forall l, validateArgumentKeys l <> None ->
                            validateArgumentKeys l = Some argumentsError).
  { induction l as [| k l IH]; simpl; [congruence |].
    destruct (negb (String.eqb k "execute") && negb (String.eqb k "init")); auto. }
  destruct (validateArgumentKeys keys) eqn:E1, (validateArgumentKeys keys') eqn:E2;
    try reflexivity.
  - rewrite <- E1, <- E2, !Hsome; congruence.
  - exfalso. rewrite validateArgumentKeys_None in E2.
    assert (validateArgumentKeys keys = None); [| congruence].
    apply validateArgumentKeys_None. intros k Hk. apply E2. rewrite <- Hp. exact Hk.
  - exfalso. rewrite validateArgumentKeys_None in E1.
    assert (validateArgumentKeys keys' = None); [| congruence].
    apply validateArgumentKeys_None. intros k Hk. apply E1. rewrite Hp. exact Hk.
Qed.

Lemma size_allowedArguments : size allowedArguments = 2.
Proof.
  unfold allowedArguments. rewrite size_union, !size_singleton; [reflexivity |].
  intros k H1 H2. apply elem_of_singleton in H1, H2. congruence.
Qed.

(** What [validateArguments] accepts: the maps all of whose keys are
    [execute] or [init]. *)
Lemma validateArguments_None_iff (req : t) :
  validateArguments req = None <-> dom (Arguments req) ⊆ allowedArguments.
Proof.
  unfold validateArguments.
  destruct (size (Arguments req) =? 0)%nat eqn:E0.
  - apply Nat.eqb_eq, map_size_empty_iff in E0. rewrite E0, dom_empty_L.
    split; [intros _ k Hk; inversion Hk | reflexivity].
  - destruct (2 <? size (Arguments req))%nat eqn:E2.
    + apply Nat.ltb_lt in E2. split; [discriminate |].
      intros H. apply subseteq_size in H.
      rewrite size_dom, size_allowedArguments in H. lia.
    + rewrite validateArgumentKeys_None. unfold allowedArguments. split.
      * intros H k Hk. apply elem_of_map_keys in Hk.
        rewrite elem_of_union, !elem_of_singleton. auto.
      * intros H k Hk. apply elem_of_map_keys, H in Hk.
        rewrite elem_of_union, !elem_of_singleton in Hk. exact Hk.
Qed.

(** The specified cases that the code does follow. *)
Lemma validateArguments_empty (req : t) :
  Arguments req = ∅ -> validateArguments req = None.
Proof.
  intros E. apply validateArguments_None_iff. rewrite E, dom_empty_L.
  intros k Hk. inversion Hk.
Qed.

Lemma validateArguments_execute_and_init (req : t) :
  dom (Arguments req) = allowedArguments -> validateArguments req = None.
Proof. intros E. apply validateArguments_None_iff. rewrite E. reflexivity. Qed.

Lemma validateArguments_other_key (req : t) (k : string) :
  k ∈ dom (Arguments req) -> k <> "execute" -> k <> "init" ->
  validateArguments req = Some argumentsError.
Proof.
  intros Hk H1 H2.
  destruct (validateArguments req) as [e |] eqn:E.
  - unfold validateArguments in E.
    destruct (size (Arguments req) =? 0)%nat; [discriminate |].
    destruct (2 <? size (Arguments req))%nat; [congruence |].
    revert E. generalize ((map_to_list (Arguments req)).*1). intros l.
    induction l as [| a l IH]; simpl; [discriminate |].
    destruct (negb (String.eqb a "execute") && negb (String.eqb a "init")); auto.
  - apply validateArguments_None_iff in E. apply E in Hk.
    unfold allowedArguments in Hk.
    rewrite elem_of_union, !elem_of_singleton in Hk. destruct Hk; contradiction.
Qed.

Lemma validateArguments_more_than_two (req : t) :
  2 < size (Arguments req) -> validateArguments req = Some argumentsError.
Proof.
  intros H. unfold validateArguments.
  destruct (size (Arguments req) =? 0)%nat eqn:E0; [apply Nat.eqb_eq in E0; lia |].
  apply Nat.ltb_lt in H. rewrite H. reflexivity.
Qed.

(** C1 (defect of the code).  The specification, like the comment
    above [validateArguments] (the valid cases are: no arguments, or
    both [execute] and [init]), makes a map whose only key is
    [execute] invalid.  The function only checks that there are at
    most two keys and that each is [execute] or [init], so it returns
    no error on that map. *)
Theorem validateArguments_accepts_execute_alone :
  dom (Arguments executeOnly) = {["execute"]} /\
  validateArguments executeOnly = None.
Proof.
  split; [| vm_compute; reflexivity].
  unfold executeOnly; simpl. apply dom_singleton_L.
Qed.
End Arguments.

(** *** Parameters of CreateWorkflow *)
Section Parameters.
Import CreateWorkflow.
Context {P : Parsers}.

(** C8.  [validateParameters] succeeds exactly when
    [execute_container_image_uri] is present with a valid image URI
    and [pre_container_image_uri], if present, is valid as well;
    and when the execute key is missing the error says that the
    parameter is required. *)
Theorem validateParameters_spec (req : t) :
  (validateParameters req = None <->
     (exists v, Parameters req !! "execute_container_image_uri" = Some v /\
                IsValidImageURI v = true) /\
     (forall v, Parameters req !! "pre_container_image_uri" = Some v ->
                IsValidImageURI v = true)) /\
  (Parameters req !! "execute_container_image_uri" = None ->
     validateParameters req =
       Some (errors_New "parameter execute_container_image_uri is required")).
Proof.
  unfold validateParameters. split.
  - destruct (Parameters req !! "execute_container_image_uri") as [v |] eqn:Ev.
    + destruct (IsValidImageURI v) eqn:Hv; simpl.
      * destruct (Parameters req !! "pre_container_image_uri") as [v' |] eqn:Ev'.
        -- destruct (IsValidImageURI v') eqn:Hv'; simpl.
           ++ split; [intros _ | reflexivity].
              split; [eauto |]. intros v0 E. injection E as <-. exact Hv'.
           ++ split; [discriminate |]. intros [_ H].
              specialize (H v' eq_refl). congruence.
        -- split; [intros _ | reflexivity]. split; [eauto | discriminate].
      * split; [discriminate |]. intros [(v0 & E & H) _].
        injection E as <-. congruence.
    + split; [discriminate |]. intros [(v0 & E & _) _]. discriminate.
  - intros E. rewrite E. reflexivity.
Qed.
End Parameters.

Lemma validateParameters_spec_witness :
  CreateWorkflow.Parameters (withParameters ∅) !! "execute_container_image_uri" = None /\
  @CreateWorkflow.validateParameters sampleParsers (withParameters ∅) =
    Some (errors_New "parameter execute_container_image_uri is required") /\
  @CreateWorkflow.validateParameters sampleParsers
     (withParameters {["execute_container_image_uri" := "a/b:1"]}) = None.
Proof.
  assert (Hmissing : CreateWorkflow.Parameters (withParameters ∅)
                       !! "execute_container_image_uri" = None) by reflexivity.
  split; [exact Hmissing |]. split.
  - exact (proj2 (@validateParameters_spec sampleParsers (withParameters ∅)) Hmissing).
  - apply (proj1 (@validateParameters_spec sampleParsers
                    (withParameters {["execute_container_image_uri" := "a/b:1"]}))).
    split.
    + exists "a/b:1". split; vm_compute; reflexivity.
    + intros v Hv. vm_compute in Hv. discriminate Hv.
Defined.

(** The cases of the specification's test list, under the sample
    parser. *)
Example validateParameters_cases :
  @CreateWorkflow.validateParameters sampleParsers (withParameters ∅) =
    Some (errors_New "parameter execute_container_image_uri is required") /\
  @CreateWorkflow.validateParameters sampleParsers
     (withParameters {["execute_container_image_uri" := "not a uri"]}) =
    Some (errors_New "parameter execute_container_image_uri must be a valid container uri") /\
  @CreateWorkflow.validateParameters sampleParsers
     (withParameters {["execute_container_image_uri" := "a/b:1"]}) = None /\
  @CreateWorkflow.validateParameters sampleParsers
     (withParameters (<["execute_container_image_uri" := "a/b:1"]>
                        {["pre_container_image_uri" := "a/c:2"]})) = None /\
  @CreateWorkflow.validateParameters sampleParsers
     (withParameters (<["execute_container_image_uri" := "a/b:1"]>
                        {["pre_container_image_uri" := "not a uri"]})) =
    Some (errors_New "parameter pre_container_image_uri must be a valid container uri").
Proof. repeat split; vm_compute; reflexivity. Qed.

(** *** What the struct validator looks at *)
Section Structs.
Import govalidator.

(** A field without a [valid] tag never yields an error. *)
Lemma typeCheck_untagged cv name v : typeCheck cv name [] v = [].
Proof. reflexivity. Qed.

(** Of a CreateWorkflow, struct validation reads the project and
    target names only. *)
Lemma ValidateStruct_CreateWorkflow (req : CreateWorkflow.t) :
  govalidator.ValidateStruct customValidators (CreateWorkflow.fields req) =
  typeCheck customValidators "project_name"
    [ Tag alphanum "project_name must be alphanumeric";
      Tag (stringlength 4 32) "project_name must be between 4 and 32 characters" ]
    (CreateWorkflow.ProjectName req) ++
  typeCheck customValidators "target_name"
    [ Tag (custom "alphanumunderscore") "target_name must be alphanumericunderscore";
      Tag (stringlength 4 32) "target_name must be between 4 and 32 characters" ]
    (CreateWorkflow.TargetName req).
Proof.
  unfold govalidator.ValidateStruct, CreateWorkflow.fields.
  cbn [flat_map validateField app]. rewrite !typeCheck_untagged.
  rewrite app_nil_r. reflexivity.
Qed.

(** Of a CreateTarget, struct validation reads the name only; the
    nested properties carry no tag at all. *)
Lemma ValidateStruct_CreateTarget (req : CreateTarget.t) :
  govalidator.ValidateStruct customValidators (CreateTarget.fields req) =
  typeCheck customValidators "name"
    [ Tag required "name is required";
      Tag (custom "alphanumunderscore") "name must be alphanumeric underscore";
      Tag (stringlength 4 32) "name must be between 4 and 32 characters" ]
    (CreateTarget.Name req).
Proof.
  unfold govalidator.ValidateStruct, CreateTarget.fields, TargetProperties.fields.
  cbn [flat_map validateField app]. rewrite !typeCheck_untagged.
  rewrite app_nil_r. reflexivity.
Qed.
End Structs.

(** *** CreateTarget *)
Section CreateTarget.
Import CreateTarget.
Context {P : Parsers}.

(** C7.  A CreateTarget whose type is not [aws_account] is rejected
    with the type error, whatever its name and properties are:
    neither the struct constraints nor the property checks have a
    say in the result. *)
Theorem CreateTarget_Validate_type_first (req : t) :
  Type_ req <> "aws_account" -> Validate req = Some typeError.
Proof.
  intros H. unfold Validate. apply String.eqb_neq in H. rewrite H. reflexivity.
Qed.

(** The fields [Validate] depends on. *)
Lemma CreateTarget_Validate_depends (r1 r2 : t) :
  Name r1 = Name r2 ->
  Type_ r1 = Type_ r2 ->
  TargetProperties.CredentialType (Properties r1) =
    TargetProperties.CredentialType (Properties r2) ->
  TargetProperties.PolicyArns (Properties r1) =
    TargetProperties.PolicyArns (Properties r2) ->
  TargetProperties.RoleArn (Properties r1) = TargetProperties.RoleArn (Properties r2) ->
  Validate r1 = Validate r2.
Proof.
  intros En Et Ec Ea Er.
  unfold Validate, validateTargetProperties, validations.ValidateStruct.
  cbn [validations.Validate].
  rewrite !ValidateStruct_CreateTarget, En, Et, Ec, Ea, Er. reflexivity.
Qed.

(** C9.  Two CreateTarget requests that differ only in the policy
    document validate identically; so a request that is valid stays
    valid under any policy document, the empty one included. *)
Theorem CreateTarget_Validate_ignores_PolicyDocument (r1 r2 : t) :
  Name r1 = Name r2 ->
  Type_ r1 = Type_ r2 ->
  TargetProperties.CredentialType (Properties r1) =
    TargetProperties.CredentialType (Properties r2) ->
  TargetProperties.PolicyArns (Properties r1) =
    TargetProperties.PolicyArns (Properties r2) ->
  TargetProperties.RoleArn (Properties r1) = TargetProperties.RoleArn (Properties r2) ->
  Validate r1 = Validate r2 /\ (Validate r1 = None -> Validate r2 = None).
Proof.
  intros En Et Ec Ea Er.
  assert (E : Validate r1 = Validate r2) by (apply CreateTarget_Validate_depends; assumption).
  split; [exact E | rewrite E; trivial].
Qed.
End CreateTarget.

(** On [wrongTarget] struct validation and the property checks would
    both fail; the type error is the one returned. *)
Lemma CreateTarget_Validate_type_first_witness :
  CreateTarget.Type_ wrongTarget <> "aws_account" /\
  validations.ValidateStruct (CreateTarget.fields wrongTarget) <> None /\
  @CreateTarget.validateTargetProperties sampleParsers wrongTarget <> None /\
  @CreateTarget.Validate sampleParsers wrongTarget = Some CreateTarget.typeError.
Proof.
  assert (H : CreateTarget.Type_ wrongTarget <> "aws_account")
    by (apply String.eqb_neq; reflexivity).
  split; [exact H |].
  split; [vm_compute; discriminate |].
  split; [vm_compute; discriminate |].
  exact (@CreateTarget_Validate_type_first sampleParsers wrongTarget H).
Defined.

Lemma CreateTarget_Validate_ignores_PolicyDocument_witness :
  @CreateTarget.Validate sampleParsers (sampleTarget "{}" "aws_account") = None /\
  @CreateTarget.Validate sampleParsers (sampleTarget "" "aws_account") = None.
Proof.
  destruct (@CreateTarget_Validate_ignores_PolicyDocument sampleParsers
              (sampleTarget "{}" "aws_account") (sampleTarget "" "aws_account")
              eq_refl eq_refl eq_refl eq_refl eq_refl) as [_ H].
  assert (E : @CreateTarget.Validate sampleParsers (sampleTarget "{}" "aws_account") = None)
    by (vm_compute; reflexivity).
  split; [exact E | exact (H E)].
Defined.

(** *** CreateWorkflow *)
Section CreateWorkflow.
Import CreateWorkflow.
Context {P : Parsers}.

(** C10.  Without optional validations, the verdict on a
    CreateWorkflow is a function of its arguments, parameters,
    project name and target name: two requests that agree on these
    validate identically whatever their Type, Framework,
    EnvironmentVariables and WorkflowTemplateName are; so a valid
    request stays valid under any Type, the empty one included. *)
Theorem CreateWorkflow_Validate_ignores_unconstrained (r1 r2 : t) :
  Arguments r1 = Arguments r2 ->
  Parameters r1 = Parameters r2 ->
  ProjectName r1 = ProjectName r2 ->
  TargetName r1 = TargetName r2 ->
  Validate r1 [] = Validate r2 [] /\ (Validate r1 [] = None -> Validate r2 [] = None).
Proof.
  intros Ea Ep En Et.
  assert (E : Validate r1 [] = Validate r2 []).
  { unfold Validate, validateArguments, validateParameters, validations.ValidateStruct.
    cbn [validations.Validate app].
    rewrite !ValidateStruct_CreateWorkflow, Ea, Ep, En, Et. reflexivity. }
  split; [exact E | rewrite E; trivial].
Qed.
End CreateWorkflow.

(** With the optional [ValidateType] the Type does matter. *)
Example CreateWorkflow_ValidateType_reads_Type :
  let ok := sampleWorkflow "diff" "" "" ∅ in
  let ko := sampleWorkflow "" "" "" ∅ in
  @CreateWorkflow.Validate sampleParsers ok [CreateWorkflow.ValidateType ok ["diff"; "sync"]]
    = None /\
  @CreateWorkflow.Validate sampleParsers ko [CreateWorkflow.ValidateType ko ["diff"; "sync"]]
    = Some (fmt_Errorf "type must be one of '%s'" [ArgString "diff sync"]).
Proof. split; vm_compute; reflexivity. Qed.

Lemma CreateWorkflow_Validate_ignores_unconstrained_witness :
  @CreateWorkflow.Validate sampleParsers
     (sampleWorkflow "terraform" "cdk" "deploy-template" {["AWS_REGION" := "us-west-2"]}) []
    = None /\
  @CreateWorkflow.Validate sampleParsers (sampleWorkflow "" "" "" ∅) [] = None.
Proof.
  destruct (@CreateWorkflow_Validate_ignores_unconstrained sampleParsers
              (sampleWorkflow "terraform" "cdk" "deploy-template"
                              {["AWS_REGION" := "us-west-2"]})
              (sampleWorkflow "" "" "" ∅)
              eq_refl eq_refl eq_refl eq_refl) as [_ H].
  assert (E : @CreateWorkflow.Validate sampleParsers
                (sampleWorkflow "terraform" "cdk" "deploy-template"
                                {["AWS_REGION" := "us-west-2"]}) [] = None)
    by (vm_compute; reflexivity).
  split; [exact E | exact (H E)].
Defined.

End RequestFacts.

(** ** The client *)
Module ClientFacts.
Import http api Observations.

(** *** Strings and [io.Copy] *)

Lemma append_cons (c : ascii) (s t : string) : String c s +:+ t = String c (s +:+ t).
Proof. reflexivity. Qed.

Lemma append_nil_r (s : string) : s +:+ "" = s.
Proof.
  induction s as [| c s IH]; [reflexivity |].
  rewrite append_cons, IH. reflexivity.
Qed.

Lemma append_assoc (s t u : string) : (s +:+ t) +:+ u = s +:+ t +:+ u.
Proof.
  induction s as [| c s IH]; [reflexivity |].
  rewrite !append_cons, IH. reflexivity.
Qed.

Lemma substring_whole (s : string) : String.substring 0 (String.length s) s = s.
Proof. induction s as [| c s IH]; simpl; [| rewrite IH]; reflexivity. Qed.

Lemma copyChunks_accepting (w : io.Writer) (cs : list string) :
  accepting w ->
  forall sink readErr,
    io.copyChunks w sink cs readErr = (sink +:+ io.joinChunks cs, readErr).
Proof.
  intros Hw. unfold io.joinChunks.
  induction cs as [| p cs IH]; intros sink readErr; simpl.
  - rewrite append_nil_r. reflexivity.
  - destruct (String.length p =? 0)%nat eqn:E0.
    + apply Nat.eqb_eq in E0. destruct p; [| discriminate]. simpl. apply IH.
    + rewrite Hw, Nat.ltb_irrefl, Nat.eqb_refl. simpl.
      rewrite substring_whole, IH, append_assoc. reflexivity.
Qed.

(** *** Which requests a computation hands to the transport *)

Lemma emits_ret {A : Type} (R : Request -> Prop) (a : A) : emits R (ret a).
Proof. intros w. exists []. simpl. rewrite app_nil_r. auto. Qed.

Lemma emits_bind {A B : Type} (R : Request -> Prop) (m : M A) (k : A -> M B) :
  emits R m -> (forall a, emits R (k a)) -> emits R (bind m k).
Proof.
  intros Hm Hk w. unfold bind.
  destruct (Hm w) as (l1 & E1 & F1). destruct (m w) as [a w1]; simpl in E1.
  destruct (Hk a w1) as (l2 & E2 & F2).
  exists (l1 ++ l2). rewrite E2, E1, app_assoc. split; [reflexivity |].
  apply Forall_app. auto.
Qed.

Lemma emits_Do (R : Request -> Prop) (c : Client) (req : Request) :
  R req -> emits R (Do c req).
Proof. intros H w. exists [req]. simpl. auto. Qed.

Lemma emits_Copy (R : Request -> Prop) (dst : io.Writer) (body : io.Reader) :
  emits R (Copy dst body).
Proof.
  intros w. exists []. unfold Copy.
  destruct (io.Copy dst (sink w) body). simpl. rewrite app_nil_r. auto.
Qed.

Lemma emits_issued {S : Std} (R : Request -> Prop) (c : Client) (op : Operation) :
  emits R (perform c op) -> Forall R (issued c op).
Proof. intros H. destruct (H (mkWorld [] "")) as (l & E & F). unfold issued. rewrite E. exact F. Qed.

(** Case analysis on every [match] of the computation, closing the
    branches that return at once. *)
Ltac emits_cases :=
  repeat match goal with
         | |- emits _ (ret _) => apply emits_ret
         | |- emits _ (match ?x with _ => _ end) => destruct x eqn:?
         | |- emits _ (if ?b then _ else _) => destruct b eqn:?
         end.

Section WithStd.
Context {S : Std}.

Lemma NewRequestWithContext_Ok method url body req :
  NewRequestWithContext method url body = Ok req ->
  req = mkRequest method url ∅ body.
Proof.
  unfold NewRequestWithContext. destruct (url_Parse url); intros E; congruence.
Qed.

Lemma emits_getRequest (c : Client) (url : string) :
  emits carriesNoAuthorization (getRequest c url).
Proof.
  unfold getRequest.
  destruct (NewRequestWithContext MethodGet url None) as [req | err] eqn:E;
    [| apply emits_ret].
  apply NewRequestWithContext_Ok in E as ->.
  apply emits_bind; [apply emits_Do; reflexivity |].
  intros r. unfold io.ReadAll. emits_cases.
Qed.

Lemma emits_StreamLogs (c : Client) (w : io.Writer) (name : string) :
  emits carriesNoAuthorization (StreamLogs c w name).
Proof.
  unfold StreamLogs.
  match goal with
  | |- context [NewRequestWithContext ?m ?u ?b] =>
      destruct (NewRequestWithContext m u b) as [req | err] eqn:E
  end; [| apply emits_ret].
  apply NewRequestWithContext_Ok in E as ->.
  apply emits_bind; [apply emits_Do; reflexivity |].
  intros r. emits_cases.
  apply emits_bind; [apply emits_Copy |]. intros e. emits_cases.
Qed.

Lemma Add_Authorization_fresh (c : Client) method url body :
  carriesToken c (Add "Authorization" (authToken c) (mkRequest method url ∅ body)).
Proof.
  unfold carriesToken, Add, Header_Add. simpl.
  rewrite lookup_insert_eq, lookup_empty. reflexivity.
Qed.

Lemma emits_targetOperation (c : Client) (input : TargetOperationInput) (ty : string) :
  emits (validatedPost c input ty) (targetOperation c input ty).
Proof.
  unfold targetOperation.
  destruct (requests.TargetOperation.Validate (targetReq input ty)) eqn:Ev;
    [apply emits_ret |].
  destruct (json_Marshal_TargetOperation (targetReq input ty)) as [reqBody | err] eqn:Em;
    [| apply emits_ret].
  match goal with
  | |- context [NewRequestWithContext ?m ?u ?b] =>
      destruct (NewRequestWithContext m u b) as [req | err] eqn:E
  end; [| apply emits_ret].
  apply NewRequestWithContext_Ok in E as ->.
  apply emits_bind.
  - apply emits_Do. unfold validatedPost.
    split; [exact Ev |]. split; [reflexivity |].
    split; [apply Add_Authorization_fresh |].
    exists reqBody. split; [exact Em | reflexivity].
  - intros r. unfold io.ReadAll. emits_cases.
Qed.

Lemma emits_weaken {A : Type} (R R' : Request -> Prop) (m : M A) :
  (forall req, R req -> R' req) -> emits R m -> emits R' m.
Proof.
  intros H Hm w. destruct (Hm w) as (l & E & F). exists l. split; [exact E |].
  eapply Forall_impl; eauto.
Qed.

Lemma emits_ExecuteWorkflow (c : Client) (input : ExecuteWorkflowInput) :
  emits (carriesToken c) (ExecuteWorkflow c input).
Proof.
  unfold ExecuteWorkflow.
  destruct (json_Marshal_ExecuteWorkflow input) as [reqBody | err] eqn:Em;
    [| apply emits_ret].
  match goal with
  | |- context [NewRequestWithContext ?m ?u ?b] =>
      destruct (NewRequestWithContext m u b) as [req | err] eqn:E
  end; [| apply emits_ret].
  apply NewRequestWithContext_Ok in E as ->.
  apply emits_bind; [apply emits_Do, Add_Authorization_fresh |].
  intros r. unfold io.ReadAll. emits_cases.
Qed.

(** [Diff] and [Sync] are [targetOperation] at their discriminator. *)
Lemma Diff_targetOperation (c : Client) (input : TargetOperationInput) (w : World) :
  Diff c input w = targetOperation c input diff w.
Proof.
  unfold Diff, bind. destruct (targetOperation c input diff w) as [[o | e] w']; reflexivity.
Qed.

Lemma Sync_targetOperation (c : Client) (input : TargetOperationInput) (w : World) :
  Sync c input w = targetOperation c input sync w.
Proof.
  unfold Sync, bind. destruct (targetOperation c input sync w) as [[o | e] w']; reflexivity.
Qed.

Lemma emits_ext {A : Type} (R : Request -> Prop) (m m' : M A) :
  (forall w, m w = m' w) -> emits R m' -> emits R m.
Proof. intros E H w. rewrite E. apply H. Qed.
End WithStd.

End ClientFacts.


(** ** The operations of the client *)
Module OperationFacts.
Import http api Observations ClientFacts Samples.

Section WithStd.
Context {S : Std}.

(** C2.  [Diff] and [Sync] are the shared [targetOperation] at the
    discriminators [diff] and [sync]: the request built is
    [{path, sha, type}] from the input; when its validation fails,
    that error is the result and the world is unchanged, so nothing
    was handed to the transport; and whatever is handed to the
    transport is the encoding of a request that passed validation. *)
Theorem Diff_Sync_validate_before_send (c : Client) (input : TargetOperationInput)
        (w : World) :
  targetReq input diff = requests.TargetOperation.mk (Path input) (SHA input) "diff" /\
  targetReq input sync = requests.TargetOperation.mk (Path input) (SHA input) "sync" /\
  Diff c input w = targetOperation c input diff w /\
  Sync c input w = targetOperation c input sync w /\
  (forall err, requests.TargetOperation.Validate (targetReq input diff) = Some err ->
               Diff c input w = (Err err, w)) /\
  (forall err, requests.TargetOperation.Validate (targetReq input sync) = Some err ->
               Sync c input w = (Err err, w)) /\
  (exists l, sent (snd (Diff c input w)) = sent w ++ l /\
             Forall (validatedPost c input diff) l) /\
  (exists l, sent (snd (Sync c input w)) = sent w ++ l /\
             Forall (validatedPost c input sync) l).
Proof.
  repeat (split; [reflexivity |]).
  split; [apply Diff_targetOperation |].
  split; [apply Sync_targetOperation |].
  split; [| split; [| split]].
  - intros err H. rewrite Diff_targetOperation. unfold targetOperation.
    rewrite H. reflexivity.
  - intros err H. rewrite Sync_targetOperation. unfold targetOperation.
    rewrite H. reflexivity.
  - rewrite Diff_targetOperation. apply emits_targetOperation.
  - rewrite Sync_targetOperation. apply emits_targetOperation.
Qed.

Lemma emits_perform_read (c : Client) (op : Operation) :
  isWrite op = false -> emits carriesNoAuthorization (perform c op).
Proof.
  destruct op; simpl; try discriminate; intros _.
  - apply emits_bind; [| intros r; apply emits_ret].
    unfold GetLogs. apply emits_bind; [apply emits_getRequest |].
    intros r. emits_cases.
  - apply emits_StreamLogs.
  - apply emits_bind; [| intros r; apply emits_ret].
    unfold GetWorkflowStatus. apply emits_bind; [apply emits_getRequest |].
    intros r. emits_cases.
  - apply emits_bind; [| intros r; apply emits_ret].
    unfold GetWorkflows. apply emits_bind; [apply emits_getRequest |].
    intros r. emits_cases.
Qed.

Lemma emits_perform_write (c : Client) (op : Operation) :
  isWrite op = true -> emits (carriesToken c) (perform c op).
Proof.
  destruct op; simpl; try discriminate; intros _.
  - apply emits_bind; [| intros r; apply emits_ret].
    eapply emits_ext; [apply Diff_targetOperation |].
    eapply emits_weaken; [| apply emits_targetOperation].
    intros req (_ & _ & H & _). exact H.
  - apply emits_bind; [| intros r; apply emits_ret].
    apply emits_ExecuteWorkflow.
  - apply emits_bind; [| intros r; apply emits_ret].
    eapply emits_ext; [apply Sync_targetOperation |].
    eapply emits_weaken; [| apply emits_targetOperation].
    intros req (_ & _ & H & _). exact H.
Qed.

(** C3 (amended).  The write operations, [Diff], [Sync] and
    [ExecuteWorkflow], attach an [Authorization] header whose one
    value is the client's token verbatim; the four GET operations,
    [GetWorkflowStatus], [GetWorkflows], [GetLogs] and
    [StreamLogs], send no [Authorization] header. *)
Theorem Authorization_on_writes_only (c : Client) (op : Operation) (req : Request) :
  req ∈ issued c op ->
  if isWrite op then carriesToken c req else carriesNoAuthorization req.
Proof.
  intros Hin. destruct (isWrite op) eqn:E.
  - pose proof (emits_issued _ c op (emits_perform_write c op E)) as F.
    rewrite Forall_forall in F. apply F, Hin.
  - pose proof (emits_issued _ c op (emits_perform_read c op E)) as F.
    rewrite Forall_forall in F. apply F, Hin.
Qed.

(** C6.  Once the request is built and the transport has answered:
    with status 200, a body that ends cleanly and a sink that takes
    what it is given, [StreamLogs] succeeds and the sink has
    received exactly the bytes of the body; with any other status
    it returns the unexpected-status error and the sink has
    received nothing. *)
Theorem StreamLogs_by_status (c : Client) (w : io.Writer) (workflowName : string)
        (world : World) (req : Request) (resp : Response) :
  NewRequestWithContext MethodGet
    (endpoint c +:+ "/workflows/" +:+ workflowName +:+ "/logstream") None = Ok req ->
  httpClient_ c req = Ok resp ->
  (StatusCode resp = 200%Z -> io.readError (RespBody resp) = None -> accepting w ->
   StreamLogs c w workflowName world =
     (None, mkWorld (sent world ++ [req])
                    (sink world +:+ io.joinChunks (io.chunks (RespBody resp))))) /\
  (StatusCode resp <> 200%Z ->
   StreamLogs c w workflowName world =
     (Some (fmt_Errorf "received unexpected status code: %d" [ArgInt (StatusCode resp)]),
      mkWorld (sent world ++ [req]) (sink world))).
Proof.
  intros Hreq Hdo. unfold StreamLogs. rewrite Hreq. unfold bind, Do. rewrite Hdo.
  split.
  - intros Hs He Hw. rewrite Hs. simpl. unfold Copy, io.Copy. simpl.
    rewrite He, copyChunks_accepting by exact Hw. reflexivity.
  - intros Hs. apply Z.eqb_neq in Hs. unfold StatusOK. rewrite Hs. reflexivity.
Qed.
End WithStd.

Lemma Diff_Sync_validate_before_send_witness :
  requests.TargetOperation.Validate (targetReq noSHAInput diff) = Some shaRequired /\
  @Diff sampleStd sampleClient noSHAInput emptyWorld = (Err shaRequired, emptyWorld) /\
  requests.TargetOperation.Validate (targetReq noSHAInput sync) = Some shaRequired /\
  @Sync sampleStd sampleClient noSHAInput emptyWorld = (Err shaRequired, emptyWorld).
Proof.
  destruct (@Diff_Sync_validate_before_send sampleStd sampleClient noSHAInput emptyWorld)
    as (_ & _ & _ & _ & Hd & Hs & _).
  assert (Ed : requests.TargetOperation.Validate (targetReq noSHAInput diff) = Some shaRequired)
    by (vm_compute; reflexivity).
  assert (Es : requests.TargetOperation.Validate (targetReq noSHAInput sync) = Some shaRequired)
    by (vm_compute; reflexivity).
  split; [exact Ed |]. split; [exact (Hd _ Ed) |]. split; [exact Es | exact (Hs _ Es)].
Defined.

Lemma Authorization_on_writes_only_witness :
  samplePost ∈ @issued sampleStd sampleClient (OpDiff sampleInput) /\
  carriesToken sampleClient samplePost.
Proof.
  assert (H : samplePost ∈ @issued sampleStd sampleClient (OpDiff sampleInput)).
  { assert (E : @issued sampleStd sampleClient (OpDiff sampleInput) = [samplePost])
      by (vm_compute; reflexivity).
    rewrite E. apply list_elem_of_singleton. reflexivity. }
  split; [exact H |].
  exact (@Authorization_on_writes_only sampleStd sampleClient (OpDiff sampleInput)
           samplePost H).
Defined.

Lemma buffer_accepting : accepting buffer.
Proof. intros received p. reflexivity. Qed.

Lemma StreamLogs_by_status_witness :
  @StreamLogs sampleStd sampleClient buffer "wf-1" emptyWorld =
    (None, mkWorld [logstreamRequest] "first line;second line;") /\
  @StreamLogs sampleStd notFoundClient buffer "wf-1" emptyWorld =
    (Some (fmt_Errorf "received unexpected status code: %d" [ArgInt 404]),
     mkWorld [logstreamRequest] "").
Proof.
  split.
  - destruct (@StreamLogs_by_status sampleStd sampleClient buffer "wf-1" emptyWorld
                logstreamRequest
                (mkResponse 200 (io.mkReader ["first line;"; "second line;"] None))
                eq_refl eq_refl) as [H _].
    exact (H eq_refl eq_refl buffer_accepting).
  - destruct (@StreamLogs_by_status sampleStd notFoundClient buffer "wf-1" emptyWorld
                logstreamRequest
                (mkResponse 404 (io.mkReader ["first line;"; "second line;"] None))
                eq_refl eq_refl) as [_ H].
    apply H. intros E. discriminate E.
Defined.

(** C3, as stated, fails: [GetLogs] and [StreamLogs] are neither of
    the two status queries, yet the request each of them sends has no
    [Authorization] header. *)
Lemma GetLogs_StreamLogs_send_no_Authorization :
  isStatusQuery (OpGetLogs "wf-1") = false /\
  isStatusQuery (OpStreamLogs buffer "wf-1") = false /\
  @issued sampleStd sampleClient (OpGetLogs "wf-1") =
    [mkRequest "GET" "https://localhost:8443/workflows/wf-1/logs" ∅ None] /\
  @issued sampleStd sampleClient (OpStreamLogs buffer "wf-1") =
    [mkRequest "GET" "https://localhost:8443/workflows/wf-1/logstream" ∅ None] /\
  ~ carriesToken sampleClient
      (mkRequest "GET" "https://localhost:8443/workflows/wf-1/logs" ∅ None) /\
  ~ carriesToken sampleClient
      (mkRequest "GET" "https://localhost:8443/workflows/wf-1/logstream" ∅ None).
Proof.
  repeat (split; [vm_compute; reflexivity |]).
  split; intros H; unfold carriesToken in H; simpl in H;
    rewrite lookup_empty in H; discriminate.
Qed.

End OperationFacts.

(** ** What the patterns accept *)
Module PatternFacts.
Import Regexp RegexpFacts validations ValidationFacts Acceptance.

Lemma Matches_Star_Class p l : Matches (Star (Class p)) l <-> forallb p l = true.
Proof.
  split.
  - intros H. remember (Star (Class p)) as r eqn:Er.
    induction H; try discriminate; [reflexivity |].
    injection Er as ->.
    apply Matches_Class_inv in H as (c & -> & Hc). simpl.
    rewrite Hc. apply IHMatches2. reflexivity.
  - induction l as [| c l IH]; simpl; intros H; [apply MStar0 |].
    apply andb_true_iff in H as [Hc Hl].
    apply (MStarS (Class p) [c] l); [apply MClass; exact Hc | apply IH; exact Hl].
Qed.

Lemma Matches_Word w l : Matches (Word w) l <-> l = list_ascii_of_string w.
Proof.
  revert l. induction w as [| c w IH]; intros l; simpl.
  - split; [apply Matches_Eps_inv | intros ->; apply MEps].
  - split.
    + intros H. apply Matches_Cat_inv in H as (u & v & -> & Hu & Hv).
      apply Matches_Class_inv in Hu as (c' & -> & Hc).
      apply Ascii.eqb_eq in Hc as <-. apply IH in Hv as ->. reflexivity.
    + intros ->. apply (MCat _ _ [c] (list_ascii_of_string w)).
      * apply MClass. apply Ascii.eqb_refl.
      * apply IH. reflexivity.
Qed.

Lemma Matches_Plus_Class p l :
  Matches (Plus (Class p)) l <-> l <> [] /\ forallb p l = true.
Proof.
  unfold Plus. split.
  - intros H. apply Matches_Cat_inv in H as (u & v & -> & Hu & Hv).
    apply Matches_Class_inv in Hu as (c & -> & Hc). apply Matches_Star_Class in Hv.
    simpl. rewrite Hc, Hv. split; [discriminate | reflexivity].
  - intros [Hne H]. destruct l as [| c l]; [contradiction |].
    simpl in H. apply andb_true_iff in H as [Hc Hl].
    apply (MCat _ _ [c] l); [apply MClass; exact Hc | apply Matches_Star_Class; exact Hl].
Qed.

Lemma bool_eq_iff (a b : bool) : (a = true <-> b = true) -> a = b.
Proof.
  destruct a, b; intros [H1 H2]; try reflexivity.
  - symmetry. apply H1. reflexivity.
  - apply H2. reflexivity.
Qed.

Lemma identifier_spec (s : string) : isAlphaNumbericUnderscore s = identifier s.
Proof.
  apply bool_eq_iff. unfold isAlphaNumbericUnderscore, alphaNumericUnderscorePattern.
  rewrite MatchString_anchored. destruct s as [| c rest]; simpl.
  - split; [| discriminate]. intros H.
    apply Matches_Cat_inv in H as (u & v & E & Hu & _).
    apply Matches_Class_inv in Hu as (c & -> & _). discriminate E.
  - unfold allOf, chars. rewrite andb_true_iff, <- Matches_Star_Class. split.
    + intros H. apply Matches_Cat_inv in H as (u & v & E & Hu & Hv).
      apply Matches_Class_inv in Hu as (c' & -> & Hc). injection E as -> ->. auto.
    + intros [Hc Hl]. apply (MCat _ _ [c] (list_ascii_of_string rest));
        [apply MClass; exact Hc | exact Hl].
Qed.

(** X1.  [isAlphaNumbericUnderscore] accepts exactly the strings made
    of a letter followed by letters, digits and underscores: the empty
    string, a leading digit or underscore, and any other byte anywhere
    (a hyphen, a space, a byte of a multi-byte rune) are refused. *)
Theorem isAlphaNumbericUnderscore_identifier (s : string) :
  isAlphaNumbericUnderscore s = identifier s.
Proof. exact (identifier_spec s). Qed.

(** govalidator's [alphanum]: every byte is a letter or a digit. *)
Lemma IsAlphanumeric_allOf (s : string) :
  govalidator.IsAlphanumeric s = allOf alnum s.
Proof.
  unfold govalidator.IsAlphanumeric. destruct (String.eqb s "") eqn:E.
  - apply String.eqb_eq in E as ->. reflexivity.
  - apply String.eqb_neq in E. apply bool_eq_iff.
    unfold govalidator.rxAlphanumeric. rewrite MatchString_anchored, Matches_Plus_Class.
    unfold allOf, chars. split; [intros [_ H]; exact H |].
    intros H. split; [| exact H]. destruct s; [contradiction | discriminate].
Qed.

Lemma string_of_list_ascii_app (u v : list ascii) :
  string_of_list_ascii (u ++ v) = string_of_list_ascii u +:+ string_of_list_ascii v.
Proof. induction u as [| c u IH]; simpl; [reflexivity |]. rewrite IH. reflexivity. Qed.

(** X2.  A string that [isValidGitURI] accepts contains a colon, then
    at least one more byte, then [.git]: anything without that shape
    is refused, a URL that does not name a [.git] repository
    included. *)
Theorem isValidGitURI_needs_colon_and_dot_git (s : string) :
  isValidGitURI s = true ->
  exists pre mid post : string,
    s = pre +:+ ":" +:+ mid +:+ ".git" +:+ post /\ mid <> "".
Proof.
  intros H. apply isValidGitURI_contains in H as (pre & m & post & E & H).
  unfold gitURIPattern in H. simpl in H.
  apply Matches_Cat_inv in H as (scheme & r1 & -> & _ & H).
  apply Matches_Cat_inv in H as (sep & r2 & -> & Hsep & H).
  apply Matches_Cat_inv in H as (path & r3 & -> & Hpath & H).
  apply Matches_Cat_inv in H as (dotgit & slash & -> & Hgit & _).
  apply Matches_Cat_inv in Hsep as (colon & slashes & -> & Hcolon & _).
  apply Matches_Class_inv in Hcolon as (c & -> & Hc). apply Ascii.eqb_eq in Hc as <-.
  change (Cat (Chr ".") (Cat (Chr "g") (Cat (Chr "i") (Cat (Chr "t") Eps))))
    with (Word ".git") in Hgit.
  apply Matches_Word in Hgit as ->.
  apply Matches_Plus_Class in Hpath as [Hne _].
  exists (string_of_list_ascii (pre ++ scheme)),
         (string_of_list_ascii (slashes ++ path)),
         (string_of_list_ascii (slash ++ post)).
  split.
  - rewrite <- (string_of_list_ascii_of_string s), E.
    change ":" with (string_of_list_ascii [":"%char]).
    change ".git" with (string_of_list_ascii (list_ascii_of_string ".git")).
    rewrite <- !string_of_list_ascii_app. f_equal.
    rewrite <- !app_assoc. reflexivity.
  - intros E'. apply (f_equal list_ascii_of_string) in E'.
    rewrite list_ascii_of_string_of_list_ascii in E'. simpl in E'.
    apply app_eq_nil in E' as [_ ->]. contradiction.
Qed.

Lemma isValidGitURI_needs_colon_and_dot_git_witness :
  isValidGitURI "git@github.com:argoproj-labs/argo-cloudops.git" = true /\
  exists pre mid post : string,
    "git@github.com:argoproj-labs/argo-cloudops.git"
      = pre +:+ ":" +:+ mid +:+ ".git" +:+ post /\ mid <> "".
Proof.
  assert (H : isValidGitURI "git@github.com:argoproj-labs/argo-cloudops.git" = true)
    by (vm_compute; reflexivity).
  split; [exact H |].
  exact (isValidGitURI_needs_colon_and_dot_git _ H).
Defined.

(** The bytes of the classes are ASCII. *)
Lemma word_ascii (c : ascii) : word c = true -> (N_of_ascii c <? 128)%N = true.
Proof.
  destruct c as [[] [] [] [] [] [] [] []]; vm_compute; intros H;
    solve [reflexivity | discriminate H].
Qed.

Lemma alnum_word (c : ascii) : alnum c = true -> word c = true.
Proof. unfold word. intros ->. reflexivity. Qed.

Lemma alpha_word (c : ascii) : alpha c = true -> word c = true.
Proof. unfold word, alnum. intros ->. reflexivity. Qed.

Lemma allOf_impl (p q : ascii -> bool) (s : string) :
  (forall c, p c = true -> q c = true) -> allOf p s = true -> allOf q s = true.
Proof.
  intros Hpq. unfold allOf. rewrite !forallb_forall. intros H c Hc. apply Hpq, H, Hc.
Qed.

Lemma identifier_word (s : string) : identifier s = true -> allOf word s = true.
Proof.
  destruct s as [| c rest]; [discriminate |]. simpl. unfold allOf, chars. simpl.
  intros H. apply andb_true_iff in H as [Hc Hr].
  rewrite (alpha_word _ Hc). exact Hr.
Qed.

(** On ASCII text the rune count is the length in bytes. *)
Lemma count_ascii (bs : list N) (fuel : nat) :
  forallb (fun b => (b <? 128)%N) bs = true -> length bs <= fuel ->
  utf8.count fuel bs = length bs.
Proof.
  revert fuel. induction bs as [| b bs IH]; intros fuel H Hf.
  - destruct fuel; reflexivity.
  - simpl in H. apply andb_true_iff in H as [Hb Hbs].
    destruct fuel as [| fuel]; [simpl in Hf; lia |].
    simpl in Hf. cbn [utf8.count utf8.step]. change (0x80)%N with 128%N.
    rewrite Hb. cbn [drop]. rewrite IH; [reflexivity | exact Hbs | lia].
Qed.

Lemma length_chars (s : string) : length (list_ascii_of_string s) = String.length s.
Proof. induction s as [| c s IH]; simpl; [| rewrite IH]; reflexivity. Qed.

Lemma RuneCountInString_word (s : string) :
  allOf word s = true -> utf8.RuneCountInString s = String.length s.
Proof.
  intros H. unfold utf8.RuneCountInString, utf8.bytes.
  rewrite count_ascii.
  - rewrite length_map. apply length_chars.
  - unfold allOf, chars in H. rewrite forallb_forall in *.
    intros b Hb. apply in_map_iff in Hb as (c & <- & Hc). apply word_ascii, H, Hc.
  - reflexivity.
Qed.

Lemma StringLength_word (s : string) (lo hi : nat) :
  allOf word s = true -> govalidator.StringLength s lo hi = lengthIn lo hi s.
Proof.
  intros H. unfold govalidator.StringLength, lengthIn.
  rewrite RuneCountInString_word by exact H. reflexivity.
Qed.

End PatternFacts.

(** ** When struct validation passes *)
Module StructFacts.
Import govalidator validations requests Acceptance PatternFacts RequestFacts.

Lemma checkRequired_nil name opts : checkRequired name opts = [] <-> isRequired opts = None.
Proof.
  unfold checkRequired. destruct (isRequired opts) as [o |].
  - destruct (String.eqb (customErrorMessage o) ""); split; discriminate.
  - split; reflexivity.
Qed.

Lemma nonempty_checks_nil cv name opts v :
  (customTypeErrors cv name opts v = [] /\
   builtinErrors name opts v = [] /\
   unknownValidators cv name opts = []) <->
  forallb (passes cv v) opts = true.
Proof.
  induction opts as [| o opts IH].
  - simpl. unfold unknownValidators. simpl. split; auto.
  - unfold unknownValidators in *. cbn [customTypeErrors flat_map builtinErrors find forallb].
    unfold passes at 1. fold (customTypeErrors cv name opts v).
    destruct (tagRule o) as [| | lo hi | n]; cbn [app].
    + rewrite IH. reflexivity.
    + destruct (IsAlphanumeric v); cbn [andb].
      * rewrite IH. reflexivity.
      * split; [intros (_ & H & _); discriminate H | discriminate].
    + destruct (StringLength v lo hi); cbn [andb].
      * rewrite IH. reflexivity.
      * split; [intros (_ & H & _); discriminate H | discriminate].
    + destruct (cv !! n) as [f |] eqn:Ef.
      * rewrite bool_decide_eq_false_2 by discriminate.
        destruct (f v); cbn [andb app].
        -- rewrite IH. reflexivity.
        -- split; [intros (H & _); discriminate H | discriminate].
      * rewrite bool_decide_eq_true_2 by reflexivity. cbn [andb app].
        split; [intros (_ & _ & H); discriminate H | discriminate].
Qed.

(** A field passes [typeCheck] exactly when it is empty and not
    required, or not empty and accepted by every validator of its
    tag. *)
Lemma typeCheck_nil_iff cv name opts v :
  typeCheck cv name opts v = [] <->
  if String.eqb v "" then isRequired opts = None else forallb (passes cv v) opts = true.
Proof.
  destruct opts as [| o opts].
  - simpl. destruct (String.eqb v ""); split; reflexivity.
  - unfold typeCheck. destruct (String.eqb v "").
    + apply checkRequired_nil.
    + rewrite <- (nonempty_checks_nil cv name).
      destruct (customTypeErrors cv name (o :: opts) v);
        [| split; [discriminate | intros (H & _); discriminate H]].
      destruct (builtinErrors name (o :: opts) v);
        [| split; [discriminate | intros (_ & H & _); discriminate H]].
      split; auto. intros (_ & _ & H). exact H.
Qed.

Lemma lookup_alphanumunderscore :
  customValidators !! "alphanumunderscore" = Some isAlphaNumbericUnderscore.
Proof. unfold customValidators. apply lookup_insert_eq. Qed.

Lemma lookup_gitURI : customValidators !! "gitURI" = Some isValidGitURI.
Proof.
  unfold customValidators. rewrite lookup_insert_ne by discriminate. apply lookup_insert_eq.
Qed.

Lemma ValidateStruct_None_iff fields :
  validations.ValidateStruct fields = None <->
  govalidator.ValidateStruct customValidators fields = [].
Proof.
  unfold validations.ValidateStruct.
  destruct (govalidator.ValidateStruct customValidators fields); split;
    solve [reflexivity | discriminate].
Qed.

Lemma eqb_empty_false (v : string) : v <> "" -> String.eqb v "" = false.
Proof. apply String.eqb_neq. Qed.

(** The three shapes of tag the request structs use. *)

Lemma typeCheck_required_only name msg v :
  typeCheck customValidators name [Tag required msg] v = [] <-> v <> "".
Proof.
  rewrite typeCheck_nil_iff. destruct (String.eqb v "") eqn:E.
  - apply String.eqb_eq in E as ->. simpl. split; [discriminate | contradiction].
  - apply String.eqb_neq in E. simpl. split; auto.
Qed.

Lemma typeCheck_required_alphanum name m1 m2 v :
  typeCheck customValidators name [Tag required m1; Tag alphanum m2] v = [] <->
  v <> "" /\ allOf Regexp.alnum v = true.
Proof.
  rewrite typeCheck_nil_iff. destruct (String.eqb v "") eqn:E.
  - apply String.eqb_eq in E as ->. simpl. split; [discriminate | intros [H _]; contradiction].
  - apply String.eqb_neq in E. cbn [forallb passes tagRule andb].
    rewrite IsAlphanumeric_allOf, andb_true_r. split; [auto | intros [_ H]; exact H].
Qed.

Lemma typeCheck_optional_alphanum_length name m1 m2 v :
  typeCheck customValidators name [Tag alphanum m1; Tag (stringlength 4 32) m2] v = [] <->
  optionalName (allOf Regexp.alnum) v.
Proof.
  rewrite typeCheck_nil_iff. unfold optionalName. destruct (String.eqb v "") eqn:E.
  - apply String.eqb_eq in E as ->. simpl. split; auto.
  - apply String.eqb_neq in E. cbn [forallb passes tagRule].
    rewrite IsAlphanumeric_allOf, andb_true_r, andb_true_iff. split.
    + intros [Ha Hl]. right. split; [exact Ha |].
      rewrite <- (StringLength_word v 4 32); [exact Hl |].
      eapply allOf_impl; [apply alnum_word | exact Ha].
    + intros [-> | [Ha Hl]]; [contradiction |]. split; [exact Ha |].
      rewrite StringLength_word; [exact Hl |].
      eapply allOf_impl; [apply alnum_word | exact Ha].
Qed.

Lemma typeCheck_optional_identifier_length name m1 m2 v :
  typeCheck customValidators name
    [Tag (custom "alphanumunderscore") m1; Tag (stringlength 4 32) m2] v = [] <->
  optionalName identifier v.
Proof.
  rewrite typeCheck_nil_iff. unfold optionalName. destruct (String.eqb v "") eqn:E.
  - apply String.eqb_eq in E as ->. simpl. split; auto.
  - apply String.eqb_neq in E. cbn [forallb passes tagRule].
    rewrite lookup_alphanumunderscore, identifier_spec.
    rewrite andb_true_r, andb_true_iff. split.
    + intros [Ha Hl]. right. split; [exact Ha |].
      rewrite <- (StringLength_word v 4 32); [exact Hl | apply identifier_word, Ha].
    + intros [-> | [Ha Hl]]; [contradiction |]. split; [exact Ha |].
      rewrite StringLength_word; [exact Hl | apply identifier_word, Ha].
Qed.

Lemma typeCheck_required_identifier_length name m1 m2 m3 v :
  typeCheck customValidators name
    [Tag required m1; Tag (custom "alphanumunderscore") m2; Tag (stringlength 4 32) m3] v = []
  <-> identifier v = true /\ lengthIn 4 32 v = true.
Proof.
  rewrite typeCheck_nil_iff. destruct (String.eqb v "") eqn:E.
  - apply String.eqb_eq in E as ->. simpl. split; [discriminate | intros [H _]; discriminate H].
  - cbn [forallb passes tagRule andb].
    rewrite lookup_alphanumunderscore, identifier_spec.
    rewrite andb_true_r, andb_true_iff. split.
    + intros [Ha Hl]. split; [exact Ha |].
      rewrite <- (StringLength_word v 4 32); [exact Hl | apply identifier_word, Ha].
    + intros [Ha Hl]. split; [exact Ha |].
      rewrite StringLength_word; [exact Hl | apply identifier_word, Ha].
Qed.

Lemma typeCheck_required_gitURI name m1 m2 v :
  typeCheck customValidators name [Tag required m1; Tag (custom "gitURI") m2] v = [] <->
  v <> "" /\ isValidGitURI v = true.
Proof.
  rewrite typeCheck_nil_iff. destruct (String.eqb v "") eqn:E.
  - apply String.eqb_eq in E as ->. simpl. split; [discriminate | intros [H _]; contradiction].
  - apply String.eqb_neq in E. cbn [forallb passes tagRule andb].
    rewrite lookup_gitURI, andb_true_r. split; [auto | intros [_ H]; exact H].
Qed.

Lemma app_nil_iff {A : Type} (l1 l2 : list A) : l1 ++ l2 = [] <-> l1 = [] /\ l2 = [].
Proof. split; [apply app_eq_nil | intros [-> ->]; reflexivity]. Qed.

Lemma TargetOperation_passes (req : TargetOperation.t) :
  TargetOperation.Validate req = None <->
  TargetOperation.Path req <> "" /\
  TargetOperation.SHA req <> "" /\
  allOf Regexp.alnum (TargetOperation.SHA req) = true /\
  TargetOperation.Type_ req <> "".
Proof.
  unfold TargetOperation.Validate. rewrite ValidateStruct_None_iff.
  unfold govalidator.ValidateStruct, TargetOperation.fields.
  cbn [flat_map validateField errorName String.eqb Ascii.eqb Bool.eqb].
  rewrite !app_nil_iff, !typeCheck_required_only, typeCheck_required_alphanum.
  tauto.
Qed.

(** X3.  A TargetOperation passes validation exactly when its path
    and type are not empty and its sha is a non-empty string of
    letters and digits. *)
Theorem TargetOperation_Validate_None_iff (req : TargetOperation.t) :
  TargetOperation.Validate req = None <->
  TargetOperation.Path req <> "" /\
  TargetOperation.SHA req <> "" /\
  allOf Regexp.alnum (TargetOperation.SHA req) = true /\
  TargetOperation.Type_ req <> "".
Proof. exact (TargetOperation_passes req). Qed.

(** X4.  A CreateGitWorkflow passes validation exactly when its path
    and type are not empty and its commit hash is a non-empty string
    of letters and digits. *)
Theorem CreateGitWorkflow_Validate_None_iff (req : CreateGitWorkflow.t) :
  CreateGitWorkflow.Validate req = None <->
  CreateGitWorkflow.CommitHash req <> "" /\
  allOf Regexp.alnum (CreateGitWorkflow.CommitHash req) = true /\
  CreateGitWorkflow.Path req <> "" /\
  CreateGitWorkflow.Type_ req <> "".
Proof.
  unfold CreateGitWorkflow.Validate. rewrite ValidateStruct_None_iff.
  unfold govalidator.ValidateStruct, CreateGitWorkflow.fields.
  cbn [flat_map validateField errorName String.eqb Ascii.eqb Bool.eqb].
  rewrite !app_nil_iff, !typeCheck_required_only, typeCheck_required_alphanum.
  tauto.
Qed.

(** X5.  A CreateProject passes validation exactly when its name is
    empty or made of 4 to 32 letters and digits, and its repository is
    a non-empty string that [isValidGitURI] accepts.  The name is not
    required; the repository is. *)
Theorem CreateProject_Validate_None_iff (req : CreateProject.t) :
  CreateProject.Validate req = None <->
  optionalName (allOf Regexp.alnum) (CreateProject.Name req) /\
  CreateProject.Repository req <> "" /\
  isValidGitURI (CreateProject.Repository req) = true.
Proof.
  unfold CreateProject.Validate. rewrite ValidateStruct_None_iff.
  unfold govalidator.ValidateStruct, CreateProject.fields.
  cbn [flat_map validateField errorName String.eqb Ascii.eqb Bool.eqb].
  rewrite !app_nil_iff, typeCheck_optional_alphanum_length, typeCheck_required_gitURI.
  tauto.
Qed.

End StructFacts.

(** ** Which requests are accepted *)
Module AcceptanceFacts.
Import govalidator validations requests Acceptance Observations.
Import PatternFacts ValidationFacts RequestFacts StructFacts.

(** *** The [Validate] combinator *)

Lemma Validate_app (vs1 vs2 : list (unit -> option error)) :
  validations.Validate (vs1 ++ vs2) =
  match validations.Validate vs1 with
  | Some err => Some err
  | None => validations.Validate vs2
  end.
Proof.
  induction vs1 as [| v vs1 IH]; simpl; [reflexivity |].
  destruct (v tt); [reflexivity | exact IH].
Qed.

Lemma Validate_all_pass (vs : list (unit -> option error)) :
  validations.Validate vs = None <-> Forall (fun v => v tt = None) vs.
Proof.
  induction vs as [| v vs IH]; simpl.
  - split; [constructor | reflexivity].
  - destruct (v tt) eqn:E.
    + split; [discriminate |]. intros H. inversion H; subst. congruence.
    + rewrite IH. split; [intros H; constructor; assumption | intros H; inversion H; assumption].
Qed.

(** X6.  [Validate] returns the error of the first check that fails:
    the checks before it have passed and the checks after it have no
    say in the result. *)
Theorem Validate_first_error (before after : list (unit -> option error))
        (v : unit -> option error) (err : error) :
  Forall (fun v' => v' tt = None) before ->
  v tt = Some err ->
  validations.Validate (before ++ v :: after) = Some err.
Proof.
  intros Hb Hv. rewrite Validate_app.
  apply Validate_all_pass in Hb. rewrite Hb. simpl. rewrite Hv. reflexivity.
Qed.

Lemma Validate_first_error_witness :
  validations.Validate
    ([fun _ => None] ++ (fun _ => Some (errors_New "second")) ::
       [fun _ => Some (errors_New "third")])
  = Some (errors_New "second").
Proof.
  apply (Validate_first_error [fun _ => None] [fun _ => Some (errors_New "third")]
                              (fun _ => Some (errors_New "second")) (errors_New "second")).
  - constructor; [reflexivity | constructor].
  - reflexivity.
Defined.

Section WithParsers.
Context {P : Parsers}.

(** *** TargetProperties *)

Lemma validatePolicyArns_None (arns : list string) :
  CreateTarget.validatePolicyArns arns = None <->
  Forall (fun arn => IsValidARN arn = true) arns.
Proof.
  induction arns as [| arn rest IH]; simpl.
  - split; [constructor | reflexivity].
  - destruct (IsValidARN arn) eqn:E; simpl.
    + rewrite IH. split; [intros H; constructor; assumption | intros H; inversion H; assumption].
    + split; [discriminate |]. intros H. inversion H; subst. congruence.
Qed.

Lemma validateTargetProperties_passes (req : CreateTarget.t) :
  CreateTarget.validateTargetProperties req = None <->
  TargetProperties.CredentialType (CreateTarget.Properties req) = "vault" /\
  IsValidARN (TargetProperties.RoleArn (CreateTarget.Properties req)) = true /\
  length (TargetProperties.PolicyArns (CreateTarget.Properties req)) <= 5 /\
  Forall (fun arn => IsValidARN arn = true)
         (TargetProperties.PolicyArns (CreateTarget.Properties req)).
Proof.
  unfold CreateTarget.validateTargetProperties. cbn zeta.
  destruct (String.eqb (TargetProperties.CredentialType (CreateTarget.Properties req))
                       "vault") eqn:Ec; simpl.
  - apply String.eqb_eq in Ec.
    destruct (IsValidARN (TargetProperties.RoleArn (CreateTarget.Properties req))) eqn:Er;
      simpl.
    + destruct (5 <? length (TargetProperties.PolicyArns (CreateTarget.Properties req)))%nat
        eqn:El.
      * apply Nat.ltb_lt in El. split; [discriminate | intros (_ & _ & H & _); lia].
      * apply Nat.ltb_ge in El. rewrite validatePolicyArns_None. tauto.
    + split; [discriminate | intros (_ & H & _); discriminate H].
  - apply String.eqb_neq in Ec. split; [discriminate | intros (H & _); contradiction].
Qed.

(** X7.  The properties of a target pass exactly when the credential
    type is [vault], the role ARN is valid, and there are at most five
    policy ARNs, each of them valid.  With a good credential type and
    role ARN, more than five policy ARNs are refused for their number,
    whether or not they are valid. *)
Theorem validateTargetProperties_None_iff (req : CreateTarget.t) :
  let p := CreateTarget.Properties req in
  (CreateTarget.validateTargetProperties req = None <->
     TargetProperties.CredentialType p = "vault" /\
     IsValidARN (TargetProperties.RoleArn p) = true /\
     length (TargetProperties.PolicyArns p) <= 5 /\
     Forall (fun arn => IsValidARN arn = true) (TargetProperties.PolicyArns p)) /\
  (TargetProperties.CredentialType p = "vault" ->
   IsValidARN (TargetProperties.RoleArn p) = true ->
   5 < length (TargetProperties.PolicyArns p) ->
   CreateTarget.validateTargetProperties req =
     Some (errors_New "policy_arns cannot be more than 5")).
Proof.
  intros p. split; [apply validateTargetProperties_passes |].
  unfold CreateTarget.validateTargetProperties. fold p.
  intros Ec Er El. apply String.eqb_eq in Ec. apply Nat.ltb_lt in El.
  rewrite Ec, Er, El. reflexivity.
Qed.

(** *** CreateTarget *)

(** X8.  A CreateTarget is accepted exactly when its type is
    [aws_account], its name is a letter followed by letters, digits
    and underscores, 4 to 32 bytes in all, the credential type is
    [vault], the role ARN is valid and there are at most five policy
    ARNs, all valid. *)
Theorem CreateTarget_Validate_None_iff (req : CreateTarget.t) :
  CreateTarget.Validate req = None <->
  CreateTarget.Type_ req = "aws_account" /\
  identifier (CreateTarget.Name req) = true /\
  lengthIn 4 32 (CreateTarget.Name req) = true /\
  TargetProperties.CredentialType (CreateTarget.Properties req) = "vault" /\
  IsValidARN (TargetProperties.RoleArn (CreateTarget.Properties req)) = true /\
  length (TargetProperties.PolicyArns (CreateTarget.Properties req)) <= 5 /\
  Forall (fun arn => IsValidARN arn = true)
         (TargetProperties.PolicyArns (CreateTarget.Properties req)).
Proof.
  unfold CreateTarget.Validate.
  destruct (String.eqb (CreateTarget.Type_ req) "aws_account") eqn:Et; simpl.
  - apply String.eqb_eq in Et.
    destruct (validations.ValidateStruct (CreateTarget.fields req)) eqn:Es.
    + split; [discriminate |]. intros (_ & Hn & Hl & _).
      assert (validations.ValidateStruct (CreateTarget.fields req) = None); [| congruence].
      apply ValidateStruct_None_iff. rewrite ValidateStruct_CreateTarget.
      apply typeCheck_required_identifier_length. auto.
    + apply ValidateStruct_None_iff in Es. rewrite ValidateStruct_CreateTarget in Es.
      apply typeCheck_required_identifier_length in Es as [Hn Hl].
      destruct (CreateTarget.validateTargetProperties req) eqn:Ep.
      * split; [discriminate |]. intros (_ & _ & _ & H).
        assert (CreateTarget.validateTargetProperties req = None); [| congruence].
        apply validateTargetProperties_passes. exact H.
      * apply validateTargetProperties_passes in Ep. tauto.
  - apply String.eqb_neq in Et. split; [discriminate | intros (H & _); contradiction].
Qed.

(** *** CreateWorkflow *)

Lemma CreateWorkflow_Validate_unfold (req : CreateWorkflow.t)
      (opts : list (unit -> option error)) :
  CreateWorkflow.Validate req opts =
  match CreateWorkflow.Validate req [] with
  | Some err => Some err
  | None => validations.Validate opts
  end.
Proof.
  unfold CreateWorkflow.Validate. cbn zeta.
  rewrite (Validate_app _ opts), app_nil_r. reflexivity.
Qed.

(** X9.  The optional validations of a CreateWorkflow run after the
    three built-in ones: an error of the built-in checks is returned
    whatever the optional ones would say, and the request is accepted
    exactly when the built-in checks and all the optional ones
    pass. *)
Theorem CreateWorkflow_Validate_optional_last (req : CreateWorkflow.t)
        (opts : list (unit -> option error)) :
  (forall err, CreateWorkflow.Validate req [] = Some err ->
               CreateWorkflow.Validate req opts = Some err) /\
  (CreateWorkflow.Validate req opts = None <->
     CreateWorkflow.Validate req [] = None /\ Forall (fun v => v tt = None) opts).
Proof.
  rewrite (CreateWorkflow_Validate_unfold req opts). split.
  - intros err ->. reflexivity.
  - destruct (CreateWorkflow.Validate req []).
    + split; [discriminate | intros [H _]; discriminate H].
    + rewrite Validate_all_pass. tauto.
Qed.

Lemma typeIn_true (ty : string) (types : list string) :
  CreateWorkflow.typeIn ty types = true <-> ty ∈ types.
Proof.
  induction types as [| t' rest IH]; simpl.
  - split; [discriminate | intros H; inversion H].
  - destruct (String.eqb ty t') eqn:E.
    + apply String.eqb_eq in E as ->. split; [intros _; left | reflexivity].
    + apply String.eqb_neq in E. rewrite IH, elem_of_cons. split; [auto |].
      intros [-> | H]; [contradiction | exact H].
Qed.

(** X10.  With [ValidateType] as its optional validation, a
    CreateWorkflow is accepted exactly when it passes the built-in
    checks and its type is one of the given types; with no type given,
    nothing is accepted. *)
Theorem CreateWorkflow_Validate_with_ValidateType (req : CreateWorkflow.t)
        (types : list string) :
  (CreateWorkflow.Validate req [CreateWorkflow.ValidateType req types] = None <->
     CreateWorkflow.Validate req [] = None /\ CreateWorkflow.Type_ req ∈ types) /\
  CreateWorkflow.Validate req [CreateWorkflow.ValidateType req []] <> None.
Proof.
  assert (Hiff : forall tys,
             CreateWorkflow.Validate req [CreateWorkflow.ValidateType req tys] = None <->
             CreateWorkflow.Validate req [] = None /\ CreateWorkflow.Type_ req ∈ tys).
  { intros tys. rewrite CreateWorkflow_Validate_unfold.
    destruct (CreateWorkflow.Validate req []).
    - split; [discriminate | intros [H _]; discriminate H].
    - simpl. unfold CreateWorkflow.ValidateType.
      destruct (CreateWorkflow.typeIn (CreateWorkflow.Type_ req) tys) eqn:E.
      + apply typeIn_true in E. tauto.
      + split; [discriminate |]. intros [_ H]. apply typeIn_true in H. congruence. }
  split; [apply Hiff |].
  intros H. apply Hiff in H as [_ H]. inversion H.
Qed.

(** X11.  Without optional validations a CreateWorkflow is accepted
    exactly when its project name is empty or 4 to 32 letters and
    digits, its target name is empty or an identifier of 4 to 32 bytes,
    every key of its arguments is [execute] or [init], and its
    parameters pass [validateParameters].  Neither name is required. *)
Theorem CreateWorkflow_Validate_None_iff (req : CreateWorkflow.t) :
  CreateWorkflow.Validate req [] = None <->
  optionalName (allOf Regexp.alnum) (CreateWorkflow.ProjectName req) /\
  optionalName identifier (CreateWorkflow.TargetName req) /\
  dom (CreateWorkflow.Arguments req) ⊆ allowedArguments /\
  CreateWorkflow.validateParameters req = None.
Proof.
  assert (Hs : validations.ValidateStruct (CreateWorkflow.fields req) = None <->
               optionalName (allOf Regexp.alnum) (CreateWorkflow.ProjectName req) /\
               optionalName identifier (CreateWorkflow.TargetName req)).
  { rewrite ValidateStruct_None_iff, ValidateStruct_CreateWorkflow, app_nil_iff.
    rewrite typeCheck_optional_alphanum_length, typeCheck_optional_identifier_length.
    reflexivity. }
  unfold CreateWorkflow.Validate. cbn [app validations.Validate].
  rewrite <- validateArguments_None_iff.
  destruct (validations.ValidateStruct (CreateWorkflow.fields req)).
  - split; [discriminate |]. intros (H1 & H2 & _).
    assert (Some e = None) by (apply Hs; auto). discriminate.
  - destruct (CreateWorkflow.validateArguments req);
      [split; [discriminate | intros (_ & _ & H & _); discriminate H] |].
    destruct (CreateWorkflow.validateParameters req);
      [split; [discriminate | intros (_ & _ & _ & H); discriminate H] |].
    split; [intros _ | reflexivity].
    destruct (proj1 Hs eq_refl) as [H1 H2]. auto.
Qed.

(** *** The earlier rules against the later checks *)

(** X12.  [validateParameters] accepts exactly the parameter maps that
    the two earlier rules, [isValidExecuteContainerImage] and
    [isValidPreContainerImage], both accept. *)
Theorem validateParameters_agrees_with_rules (req : CreateWorkflow.t) :
  CreateWorkflow.validateParameters req = None <->
  isValidExecuteContainerImage (CreateWorkflow.Parameters req) &&
  isValidPreContainerImage (CreateWorkflow.Parameters req) = true.
Proof.
  unfold CreateWorkflow.validateParameters, isValidExecuteContainerImage,
    isValidPreContainerImage.
  destruct (CreateWorkflow.Parameters req !! "execute_container_image_uri") as [v |];
    [| split; discriminate].
  destruct (IsValidImageURI v); simpl; [| split; discriminate].
  destruct (CreateWorkflow.Parameters req !! "pre_container_image_uri") as [v' |];
    [| split; reflexivity].
  destruct (IsValidImageURI v'); simpl; split; solve [reflexivity | discriminate].
Qed.
End WithParsers.

(** X13.  On a map that is not empty, [validateArguments] is the
    stricter of the two argument checks: whatever it accepts,
    [isValidArgument] accepts.  The empty map is where they part:
    [validateArguments] accepts it and [isValidArgument] does not. *)
Theorem validateArguments_stricter_than_isValidArgument (req : CreateWorkflow.t) :
  (CreateWorkflow.Arguments req <> ∅ ->
   CreateWorkflow.validateArguments req = None ->
   isValidArgument (CreateWorkflow.Arguments req) = true) /\
  (CreateWorkflow.Arguments req = ∅ ->
   CreateWorkflow.validateArguments req = None /\
   isValidArgument (CreateWorkflow.Arguments req) = false).
Proof.
  split.
  - intros Hne H. apply validateArguments_None_iff in H.
    apply map_choose in Hne as (k & v & Hk).
    assert (Hd : k ∈ dom (CreateWorkflow.Arguments req)) by (apply elem_of_dom; eauto).
    unfold isValidArgument. apply isValidArgumentKeys_true.
    exists k. split; [apply elem_of_map_keys; exact Hd |].
    apply H in Hd. unfold allowedArguments in Hd.
    rewrite elem_of_union, !elem_of_singleton in Hd. exact Hd.
  - intros E. split; [apply validateArguments_empty; exact E |].
    unfold isValidArgument. rewrite E, map_to_list_empty. reflexivity.
Qed.

End AcceptanceFacts.

(** ** How the calls of the client end *)
Module OutcomeFacts.
Import http api Observations Effects Acceptance ClientFacts StructFacts.

Lemma silent_ret {A : Type} (a : A) : silent (ret a).
Proof. intros w. reflexivity. Qed.

Lemma silent_Copy (dst : io.Writer) (body : io.Reader) : silent (Copy dst body).
Proof. intros w. unfold Copy. destruct (io.Copy dst (sink w) body). reflexivity. Qed.

Lemma silent_bind {A B : Type} (m : M A) (k : A -> M B) :
  silent m -> (forall a, silent (k a)) -> silent (bind m k).
Proof.
  intros Hm Hk w. unfold bind. specialize (Hm w).
  destruct (m w) as [a w1]. simpl in Hm. rewrite Hk. exact Hm.
Qed.

Lemma atMostOnce_silent {A : Type} (m : M A) : silent m -> atMostOnce m.
Proof. intros H w. exists []. rewrite H, app_nil_r. simpl. split; [reflexivity | lia]. Qed.

Lemma atMostOnce_bind_silent {A B : Type} (m : M A) (k : A -> M B) :
  atMostOnce m -> (forall a, silent (k a)) -> atMostOnce (bind m k).
Proof.
  intros Hm Hk w. unfold bind. destruct (Hm w) as (l & E & Hl).
  destruct (m w) as [a w1]. simpl in E. exists l. rewrite Hk. auto.
Qed.

Lemma atMostOnce_Do_bind {B : Type} (c : Client) (req : Request)
      (k : result Response -> M B) :
  (forall r, silent (k r)) -> atMostOnce (bind (Do c req) k).
Proof.
  intros Hk. apply atMostOnce_bind_silent; [| exact Hk].
  intros w. exists [req]. simpl. split; [reflexivity | lia].
Qed.

(** Case analysis on every [match] of a computation that sends
    nothing. *)
Ltac silent_cases :=
  repeat match goal with
         | |- silent (ret _) => apply silent_ret
         | |- silent (bind (Copy _ _) _) => apply silent_bind; [apply silent_Copy | intros ?]
         | |- silent (match ?x with _ => _ end) => destruct x eqn:?
         | |- silent (if ?b then _ else _) => destruct b eqn:?
         end.

Ltac once_cases :=
  repeat match goal with
         | |- atMostOnce (ret _) => apply atMostOnce_silent, silent_ret
         | |- atMostOnce (bind (Do _ _) _) =>
             apply atMostOnce_Do_bind; intros ?; unfold io.ReadAll; silent_cases
         | |- atMostOnce (match ?x with _ => _ end) => destruct x eqn:?
         | |- atMostOnce (if ?b then _ else _) => destruct b eqn:?
         end.

Lemma is2xx_spec (code : Z) :
  (300 <=? code)%Z || (code <? 200)%Z = negb (is2xx code).
Proof.
  unfold is2xx.
  destruct (300 <=? code)%Z eqn:E1, (code <? 200)%Z eqn:E2,
           (200 <=? code)%Z eqn:E3, (code <? 300)%Z eqn:E4; try reflexivity; lia.
Qed.

Lemma Header_Add_empty (key value : string) :
  Header_Add key value ∅ = <[key := [value]]> ∅.
Proof. unfold Header_Add. rewrite lookup_empty. reflexivity. Qed.

Section WithStd.
Context {S : Std}.

Lemma NewRequestWithContext_parsed method url body :
  url_Parse url = None ->
  NewRequestWithContext method url body = Ok (mkRequest method url ∅ body).
Proof. intros H. unfold NewRequestWithContext. rewrite H. reflexivity. Qed.

Lemma atMostOnce_getRequest (c : Client) (url : string) : atMostOnce (getRequest c url).
Proof. unfold getRequest. once_cases. Qed.

Lemma atMostOnce_targetOperation (c : Client) (input : TargetOperationInput) (ty : string) :
  atMostOnce (targetOperation c input ty).
Proof. unfold targetOperation. once_cases. Qed.

(** X14.  No operation retries: whatever the transport answers, each
    of the seven operations hands it at most one request. *)
Theorem operations_send_at_most_once (c : Client) (op : Operation) :
  atMostOnce (perform c op).
Proof.
  destruct op; simpl.
  - apply atMostOnce_bind_silent; [| intros r; apply silent_ret].
    unfold GetLogs. apply atMostOnce_bind_silent; [apply atMostOnce_getRequest |].
    intros r. silent_cases.
  - unfold StreamLogs. once_cases.
  - apply atMostOnce_bind_silent; [| intros r; apply silent_ret].
    unfold GetWorkflowStatus. apply atMostOnce_bind_silent; [apply atMostOnce_getRequest |].
    intros r. silent_cases.
  - apply atMostOnce_bind_silent; [| intros r; apply silent_ret].
    unfold GetWorkflows. apply atMostOnce_bind_silent; [apply atMostOnce_getRequest |].
    intros r. silent_cases.
  - apply atMostOnce_bind_silent; [| intros r; apply silent_ret].
    unfold Diff. apply atMostOnce_bind_silent; [apply atMostOnce_targetOperation |].
    intros r. silent_cases.
  - apply atMostOnce_bind_silent; [| intros r; apply silent_ret].
    unfold ExecuteWorkflow. once_cases.
  - apply atMostOnce_bind_silent; [| intros r; apply silent_ret].
    unfold Sync. apply atMostOnce_bind_silent; [apply atMostOnce_targetOperation |].
    intros r. silent_cases.
Qed.

(** X15.  A read succeeds on status 200 only.  Once the URL has parsed
    and the transport has answered with a body that reads cleanly,
    [getRequest] returns the body when the status is 200, and
    otherwise an error carrying the status and the body verbatim; one
    GET without headers was sent either way. *)
Theorem getRequest_needs_200 (c : Client) (url : string) (w : World) (resp : Response) :
  url_Parse url = None ->
  httpClient_ c (getOf url) = Ok resp ->
  io.readError (RespBody resp) = None ->
  getRequest c url w =
    (if (StatusCode resp =? 200)%Z then Ok (bodyOf resp) else Err (unexpectedStatus resp),
     afterSending w (getOf url)).
Proof.
  intros Hu Hd Hr. unfold getRequest.
  rewrite (NewRequestWithContext_parsed _ _ _ Hu).
  unfold bind, Do. fold (getOf url). rewrite Hd.
  unfold io.ReadAll. rewrite Hr. unfold StatusOK.
  destruct (StatusCode resp =? 200)%Z; reflexivity.
Qed.

(** X16.  [ExecuteWorkflow] posts whatever it is given, valid or not:
    once the input has been encoded and the URL has parsed, the POST
    with the token goes out.  If the transport answers with a body
    that reads cleanly, any status from 200 to 299 leads to the
    decoded response, and any other to an error carrying the status
    and the body. *)
Theorem ExecuteWorkflow_posts_unvalidated (c : Client) (input : ExecuteWorkflowInput)
        (w : World) (body : string) (resp : Response) :
  json_Marshal_ExecuteWorkflow input = Ok body ->
  url_Parse (endpoint c +:+ "/workflows") = None ->
  httpClient_ c (postOf c (endpoint c +:+ "/workflows") body) = Ok resp ->
  io.readError (RespBody resp) = None ->
  ExecuteWorkflow c input w =
    (if is2xx (StatusCode resp)
     then decoded (json_Unmarshal_ExecuteWorkflow (bodyOf resp))
     else Err (unexpectedStatus resp),
     afterSending w (postOf c (endpoint c +:+ "/workflows") body)).
Proof.
  intros Hm Hu Hd Hr. unfold ExecuteWorkflow. rewrite Hm.
  rewrite (NewRequestWithContext_parsed _ _ _ Hu).
  unfold bind, Do. fold (postOf c (endpoint c +:+ "/workflows") body). rewrite Hd.
  unfold io.ReadAll. rewrite Hr, is2xx_spec. fold (bodyOf resp).
  destruct (is2xx (StatusCode resp)); simpl; [| reflexivity].
  destruct (json_Unmarshal_ExecuteWorkflow (bodyOf resp)); reflexivity.
Qed.

(** X17.  [Diff] and [Sync] end to end.  For an input whose path is not
    empty and whose sha is a non-empty string of letters and digits,
    once the request has been encoded, the URL has parsed and the
    transport has answered with a body that reads cleanly: the POST of
    [{path, sha, type}] with the token was sent to the operations URL
    of the target, and the result is the decoded response on a status
    from 200 to 299 and the unexpected-status error otherwise. *)
Theorem targetOperation_end_to_end (c : Client) (input : TargetOperationInput)
        (w : World) (body : string) (resp : Response) :
  Path input <> "" -> SHA input <> "" -> allOf Regexp.alnum (SHA input) = true ->
  forall ty, ty = diff \/ ty = sync ->
  json_Marshal_TargetOperation (requests.TargetOperation.mk (Path input) (SHA input) ty)
    = Ok body ->
  url_Parse (operationsURL c input) = None ->
  httpClient_ c (postOf c (operationsURL c input) body) = Ok resp ->
  io.readError (RespBody resp) = None ->
  targetOperation c input ty w =
    (if is2xx (StatusCode resp)
     then decoded (json_Unmarshal_TargetOperation (bodyOf resp))
     else Err (unexpectedStatus resp),
     afterSending w (postOf c (operationsURL c input) body)).
Proof.
  intros Hp Hs Ha ty Hty Hm Hu Hd Hr. unfold targetOperation.
  assert (Hv : requests.TargetOperation.Validate (targetReq input ty) = None).
  { apply TargetOperation_passes. unfold targetReq. simpl.
    repeat split; try assumption. destruct Hty as [-> | ->]; discriminate. }
  rewrite Hv. unfold targetReq. rewrite Hm.
  fold (operationsURL c input).
  rewrite (NewRequestWithContext_parsed _ _ _ Hu).
  unfold bind, Do. fold (postOf c (operationsURL c input) body). rewrite Hd.
  unfold io.ReadAll. rewrite Hr, is2xx_spec. fold (bodyOf resp).
  destruct (is2xx (StatusCode resp)); simpl; [| reflexivity].
  destruct (json_Unmarshal_TargetOperation (bodyOf resp)); reflexivity.
Qed.

(** X18.  A log stream that breaks off.  With status 200 and a sink
    that takes what it is given, a body whose reading fails after some
    chunks leaves those chunks in the sink, and [StreamLogs] returns
    the read error wrapped with the status: output delivered before
    the failure is not taken back. *)
Theorem StreamLogs_partial_output (c : Client) (dst : io.Writer) (workflowName : string)
        (w : World) (resp : Response) (e : error) :
  let url := endpoint c +:+ "/workflows/" +:+ workflowName +:+ "/logstream" in
  url_Parse url = None ->
  httpClient_ c (getOf url) = Ok resp ->
  StatusCode resp = 200%Z ->
  io.readError (RespBody resp) = Some e ->
  accepting dst ->
  StreamLogs c dst workflowName w =
    (Some (readBodyError resp e),
     mkWorld (sent w ++ [getOf url]) (sink w +:+ bodyOf resp)).
Proof.
  intros url Hu Hd Hs He Hw. unfold StreamLogs. fold url.
  rewrite (NewRequestWithContext_parsed _ _ _ Hu).
  unfold bind, Do. fold (getOf url). rewrite Hd. unfold StatusOK. rewrite Hs. simpl.
  unfold Copy, io.Copy. simpl.
  rewrite He, copyChunks_accepting by exact Hw.
  unfold readBodyError. rewrite Hs. reflexivity.
Qed.

(** X19.  When the transport fails, every operation that got as far as
    sending returns that failure wrapped as "unable to make api call",
    and nothing reaches the caller's writer. *)
Theorem transport_failure_is_reported (c : Client) (op : Operation) (w : World)
        (e : error) :
  (forall req, httpClient_ c req = Err e) ->
  sent (snd (perform c op w)) <> sent w ->
  fst (perform c op w) = Some (transportError e) /\
  sink (snd (perform c op w)) = sink w.
Proof.
  intros Hd. unfold transportError.
  destruct op; simpl;
    unfold GetLogs, GetWorkflowStatus, GetWorkflows, Diff, Sync, StreamLogs, ExecuteWorkflow,
      getRequest, targetOperation, bind, Do, ret;
    repeat match goal with
           | |- context [httpClient_ c ?req] => rewrite (Hd req)
           | |- context [match ?x with _ => _ end] =>
               lazymatch x with
               | context [match _ with _ => _ end] => fail
               | _ => destruct x eqn:?
               end
           end; simpl; intros Hne; try (split; reflexivity); contradiction.
Qed.
End WithStd.

End OutcomeFacts.

(** ** The two revisions of the client *)
Module RevisionFacts.
Import http api Observations Effects ClientFacts OutcomeFacts.

Section WithStd.
Context {S : Std}.

(** X20.  Moving the reads onto the shared [getRequest] changed
    nothing: on every client, argument and world, the earlier
    [GetWorkflowStatus] and [GetWorkflows], written out in full, return
    what the later ones return and send what they send. *)
Theorem reads_agree_across_revisions (c : Client) (name project target : string)
        (w : World) :
  apiV1.GetWorkflowStatus c name w = api.GetWorkflowStatus c name w /\
  apiV1.GetWorkflows c project target w = api.GetWorkflows c project target w.
Proof.
  split.
  - unfold apiV1.GetWorkflowStatus, api.GetWorkflowStatus, getRequest, bind, Do, ret.
    repeat match goal with
           | |- context [match ?x with _ => _ end] =>
               lazymatch x with
               | context [match _ with _ => _ end] => fail
               | _ => destruct x eqn:?
               end
           end; reflexivity.
  - unfold apiV1.GetWorkflows, api.GetWorkflows, getRequest, bind, Do, ret.
    repeat match goal with
           | |- context [match ?x with _ => _ end] =>
               lazymatch x with
               | context [match _ with _ => _ end] => fail
               | _ => destruct x eqn:?
               end
           end; reflexivity.
Qed.

(** X21.  The later [Diff] is the earlier one behind a validation.
    When the request built from the input passes validation the two
    behave alike.  When it does not, the later [Diff] sends nothing,
    while the earlier one, which never validates, posts the request as
    soon as it can be encoded and the URL parses. *)
Theorem Diff_across_revisions (c : Client) (input : TargetOperationInput) (w : World) :
  (requests.TargetOperation.Validate (targetReq input diff) = None ->
   api.Diff c input w =
   apiV1.Diff c (ProjectName input) (TargetName input) (SHA input) (Path input) w) /\
  (forall err body,
     requests.TargetOperation.Validate (targetReq input diff) = Some err ->
     json_Marshal_TargetOperation (targetReq input diff) = Ok body ->
     url_Parse (operationsURL c input) = None ->
     sent (snd (api.Diff c input w)) = sent w /\
     sent (snd (apiV1.Diff c (ProjectName input) (TargetName input) (SHA input)
                           (Path input) w))
       = sent w ++ [postOf c (operationsURL c input) body]).
Proof.
  split.
  - intros Hv. rewrite Diff_targetOperation. unfold targetOperation, apiV1.Diff.
    rewrite Hv. reflexivity.
  - intros err body Hv Hm Hu. split.
    + rewrite Diff_targetOperation. unfold targetOperation. rewrite Hv. reflexivity.
    + unfold apiV1.Diff. unfold targetReq in Hm. rewrite Hm.
      fold (operationsURL c input).
      rewrite (NewRequestWithContext_parsed _ _ _ Hu).
      unfold bind, Do, ret. fold (postOf c (operationsURL c input) body).
      repeat match goal with
             | |- context [match ?x with _ => _ end] =>
                 lazymatch x with
                 | context [match _ with _ => _ end] => fail
                 | _ => destruct x eqn:?
                 end
             end; reflexivity.
Qed.
End WithStd.

End RevisionFacts.

(** ** The process environment *)
Module EnvFacts.
Import env.

Section WithEnvconfig.
Context {Environ : Type}.
Variable process : Environ -> string -> Vars -> Vars * option error.

(** X22.  The environment is read once.  After a first call of
    [GetEnv], every later call returns the instance and the error of
    the first, whatever the environment has become, and leaves the
    package variables as they are. *)
Theorem GetEnv_reads_once (first later : Environ) (g : Globals) :
  GetEnv process later (snd (GetEnv process first g)) =
  (fst (GetEnv process first g), snd (GetEnv process first g)).
Proof.
  unfold GetEnv. simpl. destruct (once g) eqn:Eo.
  - rewrite Eo. reflexivity.
  - unfold load. destruct (process first appPrefix (instance g)) as [inst [e |]];
      reflexivity.
Qed.

(** X23.  The first call of [GetEnv] succeeds exactly when
    [envconfig.Process] succeeds and leaves an admin secret of at
    least 16 bytes; an error of [Process] is returned as it is, the
    secret not being looked at. *)
Theorem GetEnv_first_call (environ : Environ) (g : Globals) :
  once g = false ->
  (snd (fst (GetEnv process environ g)) = None <->
     exists v, process environ appPrefix (instance g) = (v, None) /\
               16 <= String.length (AdminSecret v)) /\
  (forall v e, process environ appPrefix (instance g) = (v, Some e) ->
               fst (GetEnv process environ g) = (v, Some e)).
Proof.
  intros Eo. unfold GetEnv, load. rewrite Eo.
  destruct (process environ appPrefix (instance g)) as [inst [e |]] eqn:Ep; simpl.
  - split; [| intros v e' E; injection E as -> ->; reflexivity].
    split; [discriminate | intros (v & E & _); discriminate E].
  - split; [| intros v e' E; discriminate E].
    unfold validate. destruct (String.length (AdminSecret inst) <? 16)%nat eqn:El.
    + apply Nat.ltb_lt in El. split; [discriminate |].
      intros (v & E & Hl). injection E as ->. lia.
    + apply Nat.ltb_ge in El. split; [intros _ | reflexivity]. eauto.
Qed.
End WithEnvconfig.

End EnvFacts.

(** ** Iteration order and the one error of the arguments check *)
Module OrderFacts.
Import validations requests Observations ValidationFacts RequestFacts Cases.

(** X24.  Go visits the keys of a map in no fixed order; the verdicts
    of [validateArguments] and of [isValidArgument] are the same in
    whatever order the keys come. *)
Theorem argument_checks_ignore_key_order (keys keys' : list string) :
  keys ≡ₚ keys' ->
  CreateWorkflow.validateArgumentKeys keys = CreateWorkflow.validateArgumentKeys keys' /\
  isValidArgumentKeys keys = isValidArgumentKeys keys'.
Proof.
  intros H. split; [apply validateArgumentKeys_perm | apply isValidArgumentKeys_perm]; exact H.
Qed.

Lemma argument_checks_ignore_key_order_witness :
  keysOneWay ≡ₚ keysOtherWay /\
  CreateWorkflow.validateArgumentKeys keysOneWay =
    CreateWorkflow.validateArgumentKeys keysOtherWay /\
  isValidArgumentKeys keysOneWay = isValidArgumentKeys keysOtherWay.
Proof.
  assert (H : keysOneWay ≡ₚ keysOtherWay) by apply Permutation_swap.
  split; [exact H |].
  exact (argument_checks_ignore_key_order keysOneWay keysOtherWay H).
Defined.

(** X25.  [validateArguments] accepts exactly the maps all of whose
    keys are [execute] or [init] (the empty map, either key alone, or
    both), and every refusal is the same error, so that too many keys
    and a wrong key cannot be told apart. *)
Theorem validateArguments_verdicts (req : CreateWorkflow.t) :
  (CreateWorkflow.validateArguments req = None <->
     dom (CreateWorkflow.Arguments req) ⊆ allowedArguments) /\
  (CreateWorkflow.validateArguments req = None \/
   CreateWorkflow.validateArguments req = Some CreateWorkflow.argumentsError).
Proof.
  split; [apply validateArguments_None_iff |].
  unfold CreateWorkflow.validateArguments.
  destruct (size (CreateWorkflow.Arguments req) =? 0)%nat; [left; reflexivity |].
  destruct (2 <? size (CreateWorkflow.Arguments req))%nat; [right; reflexivity |].
  generalize ((map_to_list (CreateWorkflow.Arguments req)).*1). intros l.
  induction l as [| k l IH]; simpl; [left; reflexivity |].
  destruct (negb (String.eqb k "execute") && negb (String.eqb k "init"));
    [right; reflexivity | exact IH].
Qed.

(** X26.  [isValidGitURI] accepts every string that has an accepted
    string inside it: whatever is put before or after a git URI, the
    whole still passes. *)
Theorem isValidGitURI_closed_under_context (pre s post : string) :
  isValidGitURI s = true -> isValidGitURI (pre +:+ s +:+ post) = true.
Proof. apply isValidGitURI_extend. Qed.

Lemma isValidGitURI_closed_under_context_witness :
  isValidGitURI "ssh://host/repo.git" = true /\
  isValidGitURI ("not a uri: " +:+ "ssh://host/repo.git" +:+ " and more") = true.
Proof.
  assert (H : isValidGitURI "ssh://host/repo.git" = true) by (vm_compute; reflexivity).
  split; [exact H |].
  exact (isValidGitURI_closed_under_context "not a uri: " "ssh://host/repo.git"
                                            " and more" H).
Defined.

End OrderFacts.

(** ** The properties at the sample inputs *)
Module CaseFacts.
Import http api validations requests Observations Effects Acceptance Samples Cases.
Import AcceptanceFacts OutcomeFacts RevisionFacts EnvFacts.

Lemma validateTargetProperties_None_iff_witness :
  @CreateTarget.validateTargetProperties sampleParsers sixPolicies =
    Some (errors_New "policy_arns cannot be more than 5").
Proof.
  pose proof (@validateTargetProperties_None_iff sampleParsers sixPolicies) as H.
  cbv zeta in H. destruct H as [_ H].
  apply H; [reflexivity | vm_compute; reflexivity | simpl; lia].
Defined.

Lemma CreateWorkflow_Validate_optional_last_witness :
  @CreateWorkflow.Validate sampleParsers executeOnly [] =
    Some (errors_New "parameter execute_container_image_uri is required") /\
  @CreateWorkflow.Validate sampleParsers executeOnly
     [CreateWorkflow.ValidateType executeOnly ["diff"; "sync"]] =
    Some (errors_New "parameter execute_container_image_uri is required").
Proof.
  assert (H : @CreateWorkflow.Validate sampleParsers executeOnly [] =
              Some (errors_New "parameter execute_container_image_uri is required"))
    by (vm_compute; reflexivity).
  split; [exact H |].
  exact (proj1 (@CreateWorkflow_Validate_optional_last sampleParsers executeOnly
                  [CreateWorkflow.ValidateType executeOnly ["diff"; "sync"]]) _ H).
Defined.

Lemma validateArguments_stricter_than_isValidArgument_witness :
  isValidArgument (CreateWorkflow.Arguments (sampleWorkflow "" "" "" ∅)) = true /\
  isValidArgument (CreateWorkflow.Arguments (withParameters ∅)) = false.
Proof.
  split.
  - apply (proj1 (validateArguments_stricter_than_isValidArgument
                    (sampleWorkflow "" "" "" ∅))).
    + intros E. apply (f_equal (fun m => m !! "execute")) in E.
      vm_compute in E. discriminate E.
    + vm_compute. reflexivity.
  - apply (proj2 (validateArguments_stricter_than_isValidArgument (withParameters ∅))).
    reflexivity.
Defined.

Lemma getRequest_needs_200_witness :
  @getRequest sampleStd sampleClient "https://localhost:8443/workflows/wf-1/logs" emptyWorld =
    (Ok "first line;second line;",
     afterSending emptyWorld (getOf "https://localhost:8443/workflows/wf-1/logs")) /\
  @getRequest sampleStd createdClient "https://localhost:8443/workflows/wf-1/logs" emptyWorld =
    (Err (unexpectedStatus (answer 201)),
     afterSending emptyWorld (getOf "https://localhost:8443/workflows/wf-1/logs")).
Proof.
  split.
  - exact (@getRequest_needs_200 sampleStd sampleClient
             "https://localhost:8443/workflows/wf-1/logs" emptyWorld (answer 200)
             eq_refl eq_refl eq_refl).
  - exact (@getRequest_needs_200 sampleStd createdClient
             "https://localhost:8443/workflows/wf-1/logs" emptyWorld (answer 201)
             eq_refl eq_refl eq_refl).
Defined.

Lemma ExecuteWorkflow_posts_unvalidated_witness :
  @CreateWorkflow.Validate sampleParsers executeOnly [] <> None /\
  @ExecuteWorkflow sampleStd createdClient executeOnly emptyWorld =
    (Ok (responses.mkExecuteWorkflow "wf-1"),
     afterSending emptyWorld (postOf createdClient "https://localhost:8443/workflows" "{}")).
Proof.
  split; [vm_compute; discriminate |].
  exact (@ExecuteWorkflow_posts_unvalidated sampleStd createdClient executeOnly emptyWorld
           "{}" (answer 201) eq_refl eq_refl eq_refl eq_refl).
Defined.

Lemma targetOperation_end_to_end_witness :
  @targetOperation sampleStd createdClient sampleInput diff emptyWorld =
    (Ok (responses.mkTargetOperation "wf-1"),
     afterSending emptyWorld
       (postOf createdClient
          "https://localhost:8443/projects/demo-proj/targets/demo_target/operations"
          sampleBody)).
Proof.
  refine (@targetOperation_end_to_end sampleStd createdClient sampleInput emptyWorld
            sampleBody (answer 201) _ _ eq_refl diff (or_introl eq_refl)
            eq_refl eq_refl eq_refl eq_refl); discriminate.
Defined.

Lemma StreamLogs_partial_output_witness :
  @StreamLogs sampleStd brokenClient buffer "wf-1" emptyWorld =
    (Some (readBodyError brokenResponse brokenOff),
     mkWorld [logstreamRequest] "first line;").
Proof.
  refine (@StreamLogs_partial_output sampleStd brokenClient buffer "wf-1" emptyWorld
            brokenResponse brokenOff eq_refl eq_refl eq_refl eq_refl _).
  intros received p. reflexivity.
Defined.

Lemma transport_failure_is_reported_witness :
  fst (@perform sampleStd downClient (OpDiff sampleInput) emptyWorld) =
    Some (transportError refused) /\
  sink (snd (@perform sampleStd downClient (OpDiff sampleInput) emptyWorld)) = "".
Proof.
  refine (@transport_failure_is_reported sampleStd downClient (OpDiff sampleInput)
            emptyWorld refused (fun _ => eq_refl) _).
  vm_compute. discriminate.
Defined.

Lemma Diff_across_revisions_witness :
  @Diff sampleStd sampleClient sampleInput emptyWorld =
    @apiV1.Diff sampleStd sampleClient "demo-proj" "demo_target" "abc123" "infra/" emptyWorld /\
  sent (snd (@Diff sampleStd sampleClient noSHAInput emptyWorld)) = [] /\
  sent (snd (@apiV1.Diff sampleStd sampleClient "demo-proj" "demo_target" "" "infra/"
                         emptyWorld)) =
    [postOf sampleClient
       "https://localhost:8443/projects/demo-proj/targets/demo_target/operations" noSHABody].
Proof.
  split.
  - apply (proj1 (@Diff_across_revisions sampleStd sampleClient sampleInput emptyWorld)).
    vm_compute. reflexivity.
  - apply (proj2 (@Diff_across_revisions sampleStd sampleClient noSHAInput emptyWorld)
                 shaRequired noSHABody); vm_compute; reflexivity.
Defined.

Lemma GetEnv_first_call_witness :
  snd (fst (env.GetEnv sampleProcess goodEnvironment env.initial)) = None /\
  snd (fst (env.GetEnv sampleProcess shortEnvironment env.initial)) <> None /\
  fst (env.GetEnv sampleProcess [] env.initial) =
    (env.instance env.initial,
     Some (errors_New "required key ARGO_CLOUDOPS_ADMIN_SECRET missing value")).
Proof.
  split; [| split].
  - apply (proj1 (GetEnv_first_call sampleProcess goodEnvironment env.initial eq_refl)).
    eexists. split; [reflexivity | simpl; lia].
  - intros H.
    apply (proj1 (GetEnv_first_call sampleProcess shortEnvironment env.initial eq_refl))
      in H as (v & E & Hl).
    vm_compute in E. injection E as <-. simpl in Hl. lia.
  - apply (proj2 (GetEnv_first_call sampleProcess [] env.initial eq_refl)). reflexivity.
Defined.

End CaseFacts.
